(** * The A2A command-line client (client/client.py)

    A shallow embedding of the conversation driver: [build_message],
    [print_json_response], [handle_message] and [interactive_loop].

    The program talks to three collaborators that are not part of the
    repository: the operator at the keyboard ([input]), the A2A client
    library ([client.send_message]) and the identifier generator
    ([uuid4]).  They are modelled as follows.
    - The operator is the list of lines still to be typed; [input] on
      an empty list raises [EOFError], as Python does at end of input.
    - The agent behind the client is a function from the messages
      submitted so far and the new message to a response stream; the
      rest of a stream may depend on what was submitted while the
      caller was busy with an item.
    - [uuid4().hex] is the next element of a sequence of identifiers.
    Everything the program writes, reads or submits is recorded, in
    order, as a list of events.  The errors that occur are instances
    of [Exception].  The texts the program prints are given in UTF-8.

    Two library calls can fail where the program prints: rich raises
    when a text it is given is not well-formed markup, and [repr] can
    raise.  [print_json_response_full] is the renderer with these
    failures, which lie in its [except] clause; [print_json_response]
    is the renderer the driver is verified with, in which what the
    [except] clause prints is taken to be printable. *)

From Stdlib Require Import Bool Arith Lia List Ascii String ZArith.
Import ListNotations.
Set Warnings "-register-all".
Local Open Scope string_scope.
Local Open Scope list_scope.
Local Open Scope nat_scope.

(** ** Text

    A Python [str] is modelled by a Rocq [string] whose characters are
    the code points 0..255.  [lower] and [strip] are [str.lower] and
    [str.strip] on that range. *)

Module Text.

Definition code (c : ascii) : nat := nat_of_ascii c.

Definition in_range (lo hi n : nat) : bool := (lo <=? n) && (n <=? hi).

(** [str.isspace] on one character: U+0009..U+000D, U+001C..U+0020,
    U+0085 and U+00A0. *)
Definition isspace (c : ascii) : bool :=
  let n := code c in
  in_range 9 13 n || in_range 28 32 n || (n =? 133) || (n =? 160).

(** [str.lower] on one character: A..Z, and the accented capitals
    U+00C0..U+00DE except the multiplication sign U+00D7. *)
Definition lower_char (c : ascii) : ascii :=
  let n := code c in
  if in_range 65 90 n || (in_range 192 222 n && negb (n =? 215))
  then ascii_of_nat (n + 32)
  else c.

Fixpoint lower (s : string) : string :=
  match s with
  | EmptyString => EmptyString
  | String c s' => String (lower_char c) (lower s')
  end.

Fixpoint lstrip (s : string) : string :=
  match s with
  | EmptyString => EmptyString
  | String c s' => if isspace c then lstrip s' else s
  end.

Fixpoint rstrip (s : string) : string :=
  match s with
  | EmptyString => EmptyString
  | String c s' =>
      match rstrip s' with
      | EmptyString => if isspace c then EmptyString else String c EmptyString
      | r => String c r
      end
  end.

Definition strip (s : string) : string := rstrip (lstrip s).

(** [needle in hay] for two strings. *)
Fixpoint contains (needle hay : string) : bool :=
  String.prefix needle hay ||
  match hay with
  | EmptyString => false
  | String _ hay' => contains needle hay'
  end.

(** Truthiness of a [str | None] value: [None] and the empty string
    are false. *)
Definition truthy (s : option string) : bool :=
  match s with
  | None => false
  | Some EmptyString => false
  | Some (String _ _) => true
  end.

Definition newline : string := String (ascii_of_nat 10) EmptyString.

End Text.

(** ** Exceptions

    Only instances of [Exception] are modelled; for the program the
    one distinction that matters between classes is whether an
    instance is a [RuntimeError]. *)

Inductive ExnClass : Type :=
| RuntimeError
| RuntimeErrorSubclass (name : string)
| EOFError
| TypeError
| AttributeError
| OtherException (name : string).

Record Exn : Type := mkExn { exn_class : ExnClass; exn_str : string }.

Definition isinstance_RuntimeError (e : Exn) : bool :=
  match exn_class e with
  | RuntimeError | RuntimeErrorSubclass _ => true
  | _ => false
  end.

(** ** Python values handed to the renderer

    [PObj cls root dump] is an object of class [cls]; [root] is its
    [root] attribute when it has one, and [dump] is what its
    [model_dump(mode="json", exclude_none=True)] does when it has that
    method: raise, or return a value. *)

Inductive PyVal : Type :=
| PNone
| PBool (b : bool)
| PInt (z : Z)
| PStr (s : string)
| PList (xs : list PyVal)
| PDict (kvs : list (string * PyVal))
| PObj (cls : string) (root : option PyVal) (dump : option (Exn + PyVal)).

Definition type_name (v : PyVal) : string :=
  match v with
  | PNone => "NoneType"
  | PBool _ => "bool"
  | PInt _ => "int"
  | PStr _ => "str"
  | PList _ => "list"
  | PDict _ => "dict"
  | PObj cls _ _ => cls
  end.

(** ** Protocol types of the SDK *)

Inductive Role : Type := user | agent.

Record Part : Type := mkPart { kind : string; text : string }.

Record Message : Type := mkMessage {
  role : Role;
  parts : list Part;
  messageId : string;
  taskId : option string;
  contextId : option string
}.

Inductive TaskState : Type :=
| submitted | working | input_required | completed | canceled
| failed | rejected | auth_required | unknown.

Definition TaskState_eqb (a b : TaskState) : bool :=
  match a, b with
  | submitted, submitted | working, working
  | input_required, input_required | completed, completed
  | canceled, canceled | failed, failed | rejected, rejected
  | auth_required, auth_required | unknown, unknown => true
  | _, _ => false
  end.

Record TaskStatus : Type := mkTaskStatus { state : TaskState }.

(** A task snapshot.  [task_json] is what the snapshot's [model_dump]
    returns. *)
Record Task : Type := mkTask {
  task_id : string;
  task_context_id : string;
  task_status : TaskStatus;
  task_json : PyVal
}.

(** The second component of a streaming pair: an update event, or
    [None]. *)
Record UpdateEvent : Type := mkUpdateEvent { update_json : PyVal }.

(** A response item: a (Task, Update) tuple, or any other object (a
    Message reply). *)
Inductive Item : Type :=
| ItemPair (task : Task) (update : option UpdateEvent)
| ItemMessage (reply : PyVal).

(** The asynchronous iterator [client.send_message] returns.  Asking
    for the next item ends the iteration, raises, or yields an item;
    what follows an item may depend on the messages submitted by then. *)
Inductive Stream : Type :=
| Exhausted
| Raises (e : Exn)
| Yields (item : Item) (rest : list Message -> Stream).

(** ** Worlds, events and the monad of the driver *)

Inductive Result (A : Type) : Type :=
| Ok (a : A)
| Raise (e : Exn)
| OutOfFuel.

Arguments Ok {A} a.
Arguments Raise {A} e.
Arguments OutOfFuel {A}.

(** The text [json.dumps(data, indent=2, ensure_ascii=False)] returns,
    kept as the value it renders. *)
Inductive JsonText : Type := json_text (data : PyVal).

(** What the program does to its surroundings.  [EvCall] and
    [EvReturn] mark the entry into and the exit from [handle_message];
    the other events are calls of [print], [rprint], [input] and
    [client.send_message]. *)
Inductive Event : Type :=
| EvPrint (s : string)
| EvRichPrint (s : string)
| EvSyntax (j : JsonText)
| EvRepr (v : PyVal)
| EvInput (prompt : string) (line : option string)
| EvSend (m : Message)
| EvCall (text : string) (task_id context_id : option string)
| EvReturn (r : Result unit).

Record World : Type := mkWorld {
  inputs : list string;      (* lines the operator has still to type *)
  uuid_count : nat;          (* identifiers generated so far *)
  sent : list Message        (* messages submitted so far, oldest first *)
}.

Definition M (A : Type) : Type := World -> Result A * World * list Event.

Definition ret {A} (a : A) : M A := fun w => (Ok a, w, []).

Definition bind {A B} (m : M A) (f : A -> M B) : M B :=
  fun w =>
    match m w with
    | (Ok a, w1, ev1) => let '(r, w2, ev2) := f a w1 in (r, w2, ev1 ++ ev2)
    | (Raise e, w1, ev1) => (Raise e, w1, ev1)
    | (OutOfFuel, w1, ev1) => (OutOfFuel, w1, ev1)
    end.

Definition raise {A} (e : Exn) : M A := fun w => (Raise e, w, []).

Definition emit (ev : Event) : M unit := fun w => (Ok tt, w, [ev]).

Definition lift {A} (x : Exn + A) : M A :=
  match x with
  | inl e => raise e
  | inr a => ret a
  end.

(** [try: body / except C as e: handler e], where [caught e] tells
    whether [e] is an instance of the class [C]. *)
Definition try_except {A} (body : M A) (caught : Exn -> bool)
    (handler : Exn -> M A) : M A :=
  fun w =>
    match body w with
    | (Raise e, w1, ev1) =>
        if caught e
        then let '(r, w2, ev2) := handler e w1 in (r, w2, ev1 ++ ev2)
        else (Raise e, w1, ev1)
    | other => other
    end.

(** Every modelled exception is an instance of [Exception]. *)
Definition isinstance_Exception (e : Exn) : bool := true.

Declare Scope driver_scope.
Delimit Scope driver_scope with driver.
Notation "x <- m ;; k" := (bind m (fun x => k))
  (at level 61, m at next level, right associativity) : driver_scope.
Notation "m ;; k" := (bind m (fun _ => k))
  (at level 61, right associativity) : driver_scope.
Local Open Scope driver_scope.

Definition print (s : string) : M unit := emit (EvPrint s).

(** [rprint(s)] for a text [s] that rich accepts as markup; for any
    text, see [rprint_markup]. *)
Definition rprint (s : string) : M unit := emit (EvRichPrint s).

(** [input(prompt)]: the next line of the operator, or [EOFError]. *)
Definition input (prompt : string) : M string :=
  fun w =>
    match inputs w with
    | [] => (Raise (mkExn EOFError "EOF when reading a line"), w,
             [EvInput prompt None])
    | line :: rest =>
        (Ok line, mkWorld rest (uuid_count w) (sent w),
         [EvInput prompt (Some line)])
    end.

(** ** Rendering: print_json_response *)

(** An [int] of more than 4300 digits has no decimal text:
    converting it raises [ValueError]. *)
Definition int_text_error (z : Z) : option Exn :=
  if (10 ^ 4300 <=? Z.abs z)%Z
  then Some (mkExn (OtherException "ValueError")
               "Exceeds the limit (4300 digits) for integer string conversion; use sys.set_int_max_str_digits() to increase the limit")
  else None.

(** The exception [json.dumps] raises on [data], if any: at the first
    object that is not a plain value, or the first [int] that has no
    decimal text.  (Values of the other plain types, floats and tuples
    among them, give [json.dumps] no further way to fail and are left
    out of [PyVal].) *)
Fixpoint json_error (data : PyVal) : option Exn :=
  match data with
  | PObj cls _ _ =>
      Some (mkExn TypeError
              ("Object of type " ++ cls ++ " is not JSON serializable"))
  | PInt z => int_text_error z
  | PList xs =>
      (fix first (l : list PyVal) : option Exn :=
         match l with
         | [] => None
         | x :: l' =>
             match json_error x with
             | Some e => Some e
             | None => first l'
             end
         end) xs
  | PDict kvs =>
      (fix first (l : list (string * PyVal)) : option Exn :=
         match l with
         | [] => None
         | (_, x) :: l' =>
             match json_error x with
             | Some e => Some e
             | None => first l'
             end
         end) kvs
  | _ => None
  end.

Definition json_dumps (data : PyVal) : Exn + JsonText :=
  match json_error data with
  | Some e => inl e
  | None => inr (json_text data)
  end.

(** [v.model_dump(mode="json", exclude_none=True)]. *)
Definition model_dump (v : PyVal) : Exn + PyVal :=
  match v with
  | PObj _ _ (Some d) => d
  | _ => inl (mkExn AttributeError
                ("'" ++ type_name v ++ "' object has no attribute 'model_dump'"))
  end.

(** The three-way choice at the head of the [try] block. *)
Definition response_data (response : PyVal) : Exn + PyVal :=
  match response with
  | PObj _ (Some root) _ => model_dump root
  | PObj _ None (Some _) => model_dump response
  | _ => inr response
  end.

Definition title_line (title : string) : string :=
  Text.newline ++ "=== " ++ title ++ " ===".

Definition error_line (e : Exn) : string :=
  "[red bold]Error printing JSON:[/red bold] " ++ exn_str e.

(** [print_json_response] when what its [except] clause prints is
    printable: the error line is recorded as [EvRichPrint], the text
    of [repr(response)] as [EvRepr response]. *)
Definition print_json_response (response : PyVal) (title : string) : M unit :=
  print (title_line title) ;;
  try_except
    (data <- lift (response_data response) ;;
     json_str <- lift (json_dumps data) ;;
     emit (EvSyntax json_str))
    isinstance_Exception
    (fun e =>
       rprint (error_line e) ;;
       emit (EvRepr response)).

(** *** The renderer with the failures of rich and of repr *)

Section Libraries.

(** [repr v] is what [repr(v)] does: raise, or return a text. *)
Variable repr : PyVal -> Exn + string.

(** [markup_error s] is the error rich raises when it is given the
    text [s] to print as markup, if it raises one. *)
Variable markup_error : string -> option Exn.

(** [rprint(s)] for a text [s]. *)
Definition rprint_markup (s : string) : M unit :=
  match markup_error s with
  | Some e => raise e
  | None => emit (EvRichPrint s)
  end.

Definition print_json_response_full (response : PyVal) (title : string)
  : M unit :=
  print (title_line title) ;;
  try_except
    (data <- lift (response_data response) ;;
     json_str <- lift (json_dumps data) ;;
     emit (EvSyntax json_str))
    isinstance_Exception
    (fun e =>
       rprint_markup (error_line e) ;;
       text <- lift (repr response) ;;
       rprint_markup text).

End Libraries.

(** ** The conversation driver *)

Definition no_response_text : string :=
  "⚠️  No response received from agent".

Definition disconnect_text : string :=
  "⚠️  Agent connection ended unexpectedly. Please check if the agent is running correctly.".

Definition follow_up_prompt : string :=
  "🟡 Agent needs more input. Your reply: ".

Definition query_prompt : string :=
  Text.newline ++ "🟢 Your query: ".

Definition instructions_text : string :=
  Text.newline ++ "Enter your query below. Type 'exit' to quit.".

Definition exiting_text : string := "👋 Exiting...".

Definition exit_keywords : list string := ["exit"; "quit"].

(** [query.lower() in {"exit", "quit"}]. *)
Definition is_exit (query : string) : bool :=
  existsb (String.eqb (Text.lower query)) exit_keywords.

Definition HandleMessage : Type :=
  string -> option string -> option string -> M unit.

Section Driver.

(** [uuid4_hex n] is the identifier the [n]-th call of [uuid4().hex]
    returns. *)
Variable uuid4_hex : nat -> string.

(** [agent_stream earlier m] is the stream the client returns for
    [m] when [earlier] has been submitted before. *)
Variable agent_stream : list Message -> Message -> Stream.

Definition uuid4 : M string :=
  fun w =>
    (Ok (uuid4_hex (uuid_count w)),
     mkWorld (inputs w) (S (uuid_count w)) (sent w), []).

Definition build_message (text : string) (task_id context_id : option string)
  : M Message :=
  message_id <- uuid4 ;;
  ret (mkMessage user
         [mkPart "text" text]
         message_id
         (if Text.truthy task_id then task_id else None)
         (if Text.truthy context_id then context_id else None)).

Definition send_message (message : Message) : M Stream :=
  fun w =>
    (Ok (agent_stream (sent w) message),
     mkWorld (inputs w) (uuid_count w) (sent w ++ [message]),
     [EvSend message]).

(** The body of the [async for] loop; [recur] is the recursive call
    of [handle_message]. *)
Definition handle_item (recur : HandleMessage) (item : Item) : M unit :=
  match item with
  | ItemPair task update =>
      let task_dict := task_json task in
      let update_dict :=
        match update with
        | Some u => update_json u
        | None => PNone
        end in
      print_json_response
        (PDict [("task", task_dict); ("update", update_dict)])
        "Streaming Update" ;;
      if TaskState_eqb (state (task_status task)) input_required
      then
        follow_up <- input follow_up_prompt ;;
        recur follow_up (Some (task_id task)) (Some (task_context_id task))
      else ret tt
  | ItemMessage reply =>
      print_json_response reply "Agent Reply"
  end.

(** The [async for] loop; it returns [response_count]. *)
Fixpoint drain (recur : HandleMessage) (stream : Stream)
    (response_count : nat) : M nat :=
  match stream with
  | Exhausted => ret response_count
  | Raises e => raise e
  | Yields item rest =>
      handle_item recur item ;;
      fun w => drain recur (rest (sent w)) (S response_count) w
  end.

Definition on_runtime_error (e : Exn) : M unit :=
  if Text.contains "StopAsyncIteration" (exn_str e)
  then print disconnect_text
  else raise e.

(** The suite of the [try] statement. *)
Definition handle_message_try (recur : HandleMessage) (message : Message)
  : M unit :=
  stream <- send_message message ;;
  response_count <- drain recur stream 0 ;;
  if response_count =? 0 then print no_response_text else ret tt.

Definition handle_message_body (recur : HandleMessage)
    (text : string) (task_id context_id : option string) : M unit :=
  message <- build_message text task_id context_id ;;
  try_except
    (handle_message_try recur message)
    isinstance_RuntimeError
    on_runtime_error.

(** Brackets the events of one call with [EvCall] and [EvReturn]. *)
Definition bracket (text : string) (task_id context_id : option string)
    (m : M unit) : M unit :=
  fun w =>
    let '(r, w', ev) := m w in
    (r, w', EvCall text task_id context_id :: ev ++ [EvReturn r]).

(** [handle_message] calls itself for every follow-up; [fuel] bounds
    the depth of these calls. *)
Fixpoint handle_message_fuel (fuel : nat) : HandleMessage :=
  fun text task_id context_id =>
    match fuel with
    | 0 => fun w => (OutOfFuel, w, [])
    | S fuel' =>
        bracket text task_id context_id
          (handle_message_body (handle_message_fuel fuel')
             text task_id context_id)
    end.

(** Every nested call comes after a line was read, so one more than
    the number of lines left is fuel enough. *)
Definition handle_message : HandleMessage :=
  fun text task_id context_id w =>
    handle_message_fuel (S (List.length (inputs w))) text task_id context_id w.

(** The [while True] loop of [interactive_loop]. *)
Fixpoint query_loop (fuel : nat) : M unit :=
  match fuel with
  | 0 => fun w => (OutOfFuel, w, [])
  | S fuel' =>
      line <- input query_prompt ;;
      let query := Text.strip line in
      if is_exit query
      then print exiting_text
      else handle_message query None None ;; query_loop fuel'
  end.

(** Every turn of the loop reads a line first, so one more than the
    number of lines left is fuel enough. *)
Definition while_true : M unit :=
  fun w => query_loop (S (List.length (inputs w))) w.

Definition interactive_loop (supports_streaming : bool) : M unit :=
  print instructions_text ;;
  while_true.

End Driver.

(** ** Observing a run *)

Definition result_of {A} (o : Result A * World * list Event) : Result A :=
  fst (fst o).
Definition world_of {A} (o : Result A * World * list Event) : World :=
  snd (fst o).
Definition events_of {A} (o : Result A * World * list Event) : list Event :=
  snd o.

Arguments result_of {A} o /.
Arguments world_of {A} o /.
Arguments events_of {A} o /.

(** Events that only write to the terminal. *)
Definition is_output (ev : Event) : bool :=
  match ev with
  | EvPrint _ | EvRichPrint _ | EvSyntax _ | EvRepr _ => true
  | _ => false
  end.

(** The events of a run that do not lie inside a call of
    [handle_message] made during the run: [outline_from depth] skips
    what lies between an [EvCall] and its [EvReturn], and keeps the
    two marks of a call made at depth 0. *)
Fixpoint outline_from (depth : nat) (evs : list Event) : list Event :=
  match evs with
  | [] => []
  | EvCall t a b :: evs' =>
      (if depth =? 0 then [EvCall t a b] else []) ++ outline_from (S depth) evs'
  | EvReturn r :: evs' =>
      (if depth =? 1 then [EvReturn r] else []) ++ outline_from (pred depth) evs'
  | ev :: evs' =>
      (if depth =? 0 then [ev] else []) ++ outline_from depth evs'
  end.

Definition outline (evs : list Event) : list Event := outline_from 0 evs.

(** What the [try] suite of [print_json_response] computes before it
    prints. *)
Definition formatted (response : PyVal) : Exn + JsonText :=
  match response_data response with
  | inl e => inl e
  | inr data => json_dumps data
  end.

(** The payload [handle_message] renders for a streaming pair. *)
Definition streaming_payload (task : Task) (update : option UpdateEvent) : PyVal :=
  PDict [("task", task_json task);
         ("update", match update with
                    | Some u => update_json u
                    | None => PNone
                    end)].

(** The message [build_message] returns when [n] identifiers have been
    generated before. *)
Definition message_at (uuid4_hex : nat -> string) (n : nat)
    (text : string) (task_id context_id : option string) : Message :=
  mkMessage user [mkPart "text" text] (uuid4_hex n)
    (if Text.truthy task_id then task_id else None)
    (if Text.truthy context_id then context_id else None).

Definition lines_left (w : World) : nat := List.length (inputs w).

(** [recur1] and [recur2] run alike, keep the operator's lines from
    growing and have fuel enough, on worlds with fewer than [bound]
    lines left. *)
Definition agree_below (bound : nat) (recur1 recur2 : HandleMessage) : Prop :=
  forall t a b w,
    lines_left w < bound ->
    recur1 t a b w = recur2 t a b w /\
    lines_left (world_of (recur1 t a b w)) <= lines_left w /\
    result_of (recur1 t a b w) <> OutOfFuel.

(** [prepend evs o] is the run [o] with the events [evs] before it. *)
Definition prepend {A} (evs : list Event) (o : Result A * World * list Event)
  : Result A * World * list Event :=
  let '(r, w, ev) := o in (r, w, evs ++ ev).

(** The errors the [except] clause of [handle_message] turns into a
    warning. *)
Definition recoverable (e : Exn) : bool :=
  isinstance_RuntimeError e && Text.contains "StopAsyncIteration" (exn_str e).

(** The two marks of a call. *)
Definition is_mark (ev : Event) : bool :=
  match ev with
  | EvCall _ _ _ | EvReturn _ => true
  | _ => false
  end.

(** A list of events in which every [EvCall] has its [EvReturn]:
    reading it changes no depth, whatever follows. *)
Definition balanced (evs : list Event) : Prop :=
  forall depth rest,
    outline_from depth (evs ++ rest) =
      (if depth =? 0 then outline evs else []) ++ outline_from depth rest.

(** The identifiers of the messages submitted so far are pairwise
    distinct and were all generated already. *)
Definition consistent (uuid4_hex : nat -> string) (w : World) : Prop :=
  NoDup (map messageId (sent w)) /\
  forall m, In m (sent w) ->
            exists i, i < uuid_count w /\ messageId m = uuid4_hex i.

(** ** Sample collaborators *)

Module Demo.

(** An identifier generator that never repeats itself. *)
Fixpoint tally_id (n : nat) : string :=
  match n with
  | 0 => "id"
  | S n' => String "0" (tally_id n')
  end.

Definition start (lines : list string) : World := mkWorld lines 0 [].

(** An agent that ends every exchange at once. *)
Definition silent_agent (earlier : list Message) (m : Message) : Stream :=
  Exhausted.

Definition reply : PyVal :=
  PObj "Message" None
    (Some (inr (PDict [("kind", PStr "message"); ("role", PStr "agent")]))).

(** An agent that answers every message with one reply. *)
Definition replying_agent (earlier : list Message) (m : Message) : Stream :=
  Yields (ItemMessage reply) (fun _ => Exhausted).

Definition task_t1 (s : TaskState) : Task :=
  mkTask "t1" "c1" (mkTaskStatus s) (PDict [("id", PStr "t1")]).

(** An agent that asks for more input on a new conversation and
    completes the task on a follow-up. *)
Definition asking_agent (earlier : list Message) (m : Message) : Stream :=
  match taskId m with
  | None => Yields (ItemPair (task_t1 input_required) None) (fun _ => Exhausted)
  | Some _ => Yields (ItemPair (task_t1 completed) None) (fun _ => Exhausted)
  end.

Definition disconnect : Exn :=
  mkExn RuntimeError "anext(): StopAsyncIteration".

Definition refused : Exn :=
  mkExn (OtherException "ConnectError") "All connection attempts failed".

(** An agent whose stream breaks before the first item. *)
Definition dropping_agent (earlier : list Message) (m : Message) : Stream :=
  Raises disconnect.

Definition refusing_agent (earlier : list Message) (m : Message) : Stream :=
  Raises refused.

End Demo.

(** ** The process around the driver: run_main and the smoke test

    [run_main] and [simple_test] connect to the agent before they talk
    to it, and print a traceback when something fails.  Their events
    are the events of the driver and three kinds more. *)

Inductive ProcessEvent : Type :=
| Driver (ev : Event)
| EvConnect (agent_url : string)
| EvTraceback (e : Exn)
| EvItemType (item : Item)
| EvItem (item : Item).

(** A connected client: the stream it returns for a message, given
    the messages submitted before. *)
Definition Agent : Type := list Message -> Message -> Stream.

Definition Proc (A : Type) : Type :=
  World -> Result A * World * list ProcessEvent.

Definition proc_ret {A} (a : A) : Proc A := fun w => (Ok a, w, []).

Definition proc_bind {A B} (m : Proc A) (f : A -> Proc B) : Proc B :=
  fun w =>
    match m w with
    | (Ok a, w1, ev1) => let '(r, w2, ev2) := f a w1 in (r, w2, ev1 ++ ev2)
    | (Raise e, w1, ev1) => (Raise e, w1, ev1)
    | (OutOfFuel, w1, ev1) => (OutOfFuel, w1, ev1)
    end.

Definition proc_raise {A} (e : Exn) : Proc A := fun w => (Raise e, w, []).

Definition proc_emit (ev : ProcessEvent) : Proc unit :=
  fun w => (Ok tt, w, [ev]).

(** [try: body / except Exception as e: handler e].  Interrupts,
    which are no instances of [Exception], are not modelled. *)
Definition proc_try {A} (body : Proc A) (handler : Exn -> Proc A) : Proc A :=
  fun w =>
    match body w with
    | (Raise e, w1, ev1) =>
        let '(r, w2, ev2) := handler e w1 in (r, w2, ev1 ++ ev2)
    | other => other
    end.

(** A computation of the driver, run inside the process. *)
Definition driver {A} (m : M A) : Proc A :=
  fun w => let '(r, w1, ev) := m w in (r, w1, map Driver ev).

Definition proc_result {A} (o : Result A * World * list ProcessEvent)
  : Result A := fst (fst o).
Definition proc_world {A} (o : Result A * World * list ProcessEvent)
  : World := snd (fst o).
Definition proc_events {A} (o : Result A * World * list ProcessEvent)
  : list ProcessEvent := snd o.

Arguments proc_result {A} o /.
Arguments proc_world {A} o /.
Arguments proc_events {A} o /.

Declare Scope proc_scope.
Delimit Scope proc_scope with proc.
Notation "x <- m ;; k" := (proc_bind m (fun x => k))
  (at level 61, m at next level, right associativity) : proc_scope.
Notation "m ;; k" := (proc_bind m (fun _ => k))
  (at level 61, right associativity) : proc_scope.

Definition failed_text : string :=
  "❌ Failed to connect or run. Ensure the agent is live and reachable.".

Definition default_agent_url : string := "http://localhost:10000".

Definition connecting_text (agent_url : string) : string :=
  "Connecting to agent at " ++ agent_url ++ "...".

Definition connected_text (agent_url : string) : string :=
  "[green bold]✅ Connected to " ++ agent_url.

Section Process.

Variable uuid4_hex : nat -> string.

(** [connect agent_url] is what [ClientFactory.connect(agent_url)]
    does: raise, or return a client. *)
Variable connect : string -> Exn + Agent.

(** The error rich raises on a text, as in [rprint_markup]. *)
Variable markup_error : string -> option Exn.

Definition connect_to (agent_url : string) : Proc Agent :=
  fun w =>
    match connect agent_url with
    | inl e => (Raise e, w, [EvConnect agent_url])
    | inr client => (Ok client, w, [EvConnect agent_url])
    end.

Definition run_main (agent_url : string) : Proc unit :=
  (driver (print (connecting_text agent_url)) ;;
   proc_try
     (client <- connect_to agent_url ;;
      driver (rprint_markup markup_error (connected_text agent_url)) ;;
      driver (interactive_loop uuid4_hex client true))
     (fun e =>
        proc_emit (EvTraceback e) ;;
        driver (print failed_text)))%proc.

(** test_simple.py: one message, and the first item of the answer. *)
Definition simple_test : Proc unit :=
  (driver (print "Connecting to agent...") ;;
   proc_try
     (client <- connect_to default_agent_url ;;
      driver (print "Creating message...") ;;
      message_id <- driver (uuid4 uuid4_hex) ;;
      let message :=
        mkMessage user [mkPart "text" "What time is it?"] message_id None None in
      driver (print "Sending message...") ;;
      stream <- driver (send_message client message) ;;
      match stream with
      | Exhausted => proc_ret tt
      | Raises e => proc_raise e
      | Yields item _ =>
          proc_emit (EvItemType item) ;;
          proc_emit (EvItem item)
      end)
     (fun e =>
        driver (print ("Error: " ++ exn_str e)) ;;
        proc_emit (EvTraceback e)))%proc.

End Process.

(** ** Reading a list of events *)

(** The lines the operator gave, in order. *)
Fixpoint lines_read (evs : list Event) : list string :=
  match evs with
  | [] => []
  | EvInput _ (Some line) :: evs' => line :: lines_read evs'
  | _ :: evs' => lines_read evs'
  end.

(** The messages submitted, in order. *)
Fixpoint messages_sent (evs : list Event) : list Message :=
  match evs with
  | [] => []
  | EvSend m :: evs' => m :: messages_sent evs'
  | _ :: evs' => messages_sent evs'
  end.

(** The events of the driver among the events of the process. *)
Fixpoint driver_events (evs : list ProcessEvent) : list Event :=
  match evs with
  | [] => []
  | Driver ev :: evs' => ev :: driver_events evs'
  | _ :: evs' => driver_events evs'
  end.

(** The atomic effects of the driver: a run that emits [evs] from [w]
    and ends in [w'] is a sequence of terminal output and call marks,
    which leave the world alone, of lines read, and of messages built
    and submitted. *)
Inductive steps (uuid4_hex : nat -> string)
  : World -> list Event -> World -> Prop :=
| steps_done (w : World) : steps uuid4_hex w [] w
| steps_quiet (w w' : World) (ev : Event) (evs : list Event) :
    is_output ev || is_mark ev = true ->
    steps uuid4_hex w evs w' ->
    steps uuid4_hex w (ev :: evs) w'
| steps_input (w w' : World) (prompt line : string) (rest : list string)
    (evs : list Event) :
    inputs w = line :: rest ->
    steps uuid4_hex (mkWorld rest (uuid_count w) (sent w)) evs w' ->
    steps uuid4_hex w (EvInput prompt (Some line) :: evs) w'
| steps_eof (w w' : World) (prompt : string) (evs : list Event) :
    inputs w = [] ->
    steps uuid4_hex w evs w' ->
    steps uuid4_hex w (EvInput prompt None :: evs) w'
| steps_submit (w w' : World) (text : string)
    (task_id context_id : option string) (evs : list Event) :
    steps uuid4_hex
      (mkWorld (inputs w) (S (uuid_count w))
         (sent w ++ [message_at uuid4_hex (uuid_count w) text task_id context_id]))
      evs w' ->
    steps uuid4_hex w
      (EvSend (message_at uuid4_hex (uuid_count w) text task_id context_id) :: evs)
      w'.

(** A string of blanks only. *)
Fixpoint blank (s : string) : bool :=
  match s with
  | EmptyString => true
  | String c s' => Text.isspace c && blank s'
  end.

(** What every message of this client looks like: from the user, with
    one text part. *)
Definition well_formed (m : Message) : Prop :=
  role m = user /\ exists text, parts m = [mkPart "text" text].

(** Sample libraries: a rich that finds the closing tag [[/x]] with
    nothing open, and a [repr] for values of a few shapes. *)
Definition sample_markup_error (s : string) : option Exn :=
  if Text.contains "[/x]" s
  then Some (mkExn (OtherException "MarkupError")
               "closing tag '[/x]' doesn't match any open tag")
  else None.

Fixpoint sample_repr_text (v : PyVal) : string :=
  match v with
  | PNone => "None"
  | PBool true => "True"
  | PBool false => "False"
  | PInt _ => "0"
  | PStr s => ("'" ++ s ++ "'")%string
  | PList xs =>
      ("[" ++ (fix items (l : list PyVal) : string :=
                 match l with
                 | [] => ""
                 | x :: l' => sample_repr_text x ++ ", " ++ items l'
                 end) xs ++ "]")%string
  | PDict kvs =>
      ("{" ++ (fix items (l : list (string * PyVal)) : string :=
                 match l with
                 | [] => ""
                 | (k, x) :: l' =>
                     "'" ++ k ++ "': " ++ sample_repr_text x ++ ", " ++ items l'
                 end) kvs ++ "}")%string
  | PObj cls _ _ => ("<" ++ cls ++ " object>")%string
  end.

Definition sample_repr (v : PyVal) : Exn + string :=
  match v with
  | PInt z =>
      match int_text_error z with
      | Some e => inl e
      | None => inr "0"
      end
  | _ => inr (sample_repr_text v)
  end.

(** The payload [{'k': '[/x]', 'o': object()}]. *)
Definition tagged_payload : PyVal :=
  PDict [("k", PStr "[/x]"); ("o", PObj "object" None None)].

(** Sample connections: one that always succeeds, with a given
    client, and one that always fails. *)
Definition reachable (client : Agent) (agent_url : string) : Exn + Agent :=
  inr client.

Definition unreachable (agent_url : string) : Exn + Agent :=
  inl Demo.refused.

(** * Properties *)

(** ** Running the monad *)

Ltac run_step :=
  unfold handle_message_try, build_message, uuid4, send_message,
    on_runtime_error, print, rprint, emit, lift, raise, ret,
    bind, try_except, bracket.

Lemma print_json_response_run (response : PyVal) (title : string) (w : World) :
  print_json_response response title w =
    (Ok tt, w,
     EvPrint (title_line title) ::
     match formatted response with
     | inr j => [EvSyntax j]
     | inl e => [EvRichPrint (error_line e); EvRepr response]
     end).
Proof.
  unfold print_json_response, formatted. run_step.
  destruct (response_data response) as [e | data]; simpl; [reflexivity |].
  destruct (json_dumps data) as [e | j]; reflexivity.
Qed.

(** ** Fuel

    A nested call of [handle_message] is made with fewer lines left
    than the call around it, so the fuel [handle_message] starts with
    is never used up and any larger amount gives the same run. *)

Section Fuel.

Variable uuid4_hex : nat -> string.
Variable agent_stream : list Message -> Message -> Stream.

Let body := handle_message_body uuid4_hex agent_stream.
Let fueled := handle_message_fuel uuid4_hex agent_stream.

Lemma agree_below_le (n m : nat) (recur1 recur2 : HandleMessage) :
  m <= n -> agree_below n recur1 recur2 -> agree_below m recur1 recur2.
Proof. intros Hle H t a b w Hw. apply H. lia. Qed.

Lemma handle_item_agree (recur1 recur2 : HandleMessage) (item : Item) (w : World) :
  agree_below (lines_left w) recur1 recur2 ->
  handle_item recur1 item w = handle_item recur2 item w /\
  lines_left (world_of (handle_item recur1 item w)) <= lines_left w /\
  result_of (handle_item recur1 item w) <> OutOfFuel.
Proof.
  intros H. destruct item as [task update | reply]; simpl.
  - unfold bind. rewrite print_json_response_run.
    destruct (TaskState_eqb (state (task_status task)) input_required).
    + unfold input, lines_left in *.
      destruct (inputs w) as [| line rest] eqn:Hin; simpl.
      * repeat split; simpl; rewrite ?Hin; auto; try discriminate.
      * destruct (H line (Some (task_id task)) (Some (task_context_id task))
                    (mkWorld rest (uuid_count w) (sent w)))
          as (Heq & Hle & Hfuel); [unfold lines_left; simpl; lia |].
        rewrite <- Heq. unfold lines_left in *.
        destruct (recur1 line _ _ _) as [[r w'] ev]; simpl in *.
        rewrite ?Hin. repeat split; auto.
    + simpl. repeat split; auto. discriminate.
  - rewrite print_json_response_run. simpl. repeat split; auto. discriminate.
Qed.

Lemma drain_agree (recur1 recur2 : HandleMessage) (stream : Stream) :
  forall (count : nat) (w : World),
    agree_below (lines_left w) recur1 recur2 ->
    drain recur1 stream count w = drain recur2 stream count w /\
    lines_left (world_of (drain recur1 stream count w)) <= lines_left w /\
    result_of (drain recur1 stream count w) <> OutOfFuel.
Proof.
  induction stream as [| e | item rest IH]; intros count w H; simpl.
  - repeat split; auto. discriminate.
  - repeat split; auto. discriminate.
  - unfold bind.
    destruct (handle_item_agree recur1 recur2 item w H) as (Heq & Hle & Hfuel).
    rewrite <- Heq.
    destruct (handle_item recur1 item w) as [[r w1] ev1]; simpl in *.
    destruct r as [[] | e |]; simpl.
    + destruct (IH (sent w1) (S count) w1) as (Heq' & Hle' & Hfuel').
      { eapply agree_below_le; [exact Hle | exact H]. }
      rewrite <- Heq'.
      destruct (drain recur1 (rest (sent w1)) (S count) w1) as [[r2 w2] ev2];
        simpl in *.
      repeat split; auto. lia.
    + repeat split; auto. discriminate.
    + congruence.
Qed.

Lemma handle_message_body_agree (recur1 recur2 : HandleMessage)
    (text : string) (task_id context_id : option string) (w : World) :
  agree_below (lines_left w) recur1 recur2 ->
  body recur1 text task_id context_id w = body recur2 text task_id context_id w /\
  lines_left (world_of (body recur1 text task_id context_id w)) <= lines_left w /\
  result_of (body recur1 text task_id context_id w) <> OutOfFuel.
Proof.
  intros H. unfold body, handle_message_body. run_step. simpl.
  match goal with
  | |- context [drain recur1 ?s 0 ?w0] =>
      destruct (drain_agree recur1 recur2 s 0 w0) as (Heq & Hle & Hfuel);
      [exact H | rewrite <- Heq;
                 destruct (drain recur1 s 0 w0) as [[r w1] ev1]]
  end.
  unfold lines_left in *; simpl in *.
  destruct r as [n | e |]; simpl.
  - destruct (n =? 0); simpl; repeat split; auto; discriminate.
  - destruct (isinstance_RuntimeError e); simpl.
    + destruct (Text.contains _ _); simpl; repeat split; auto; discriminate.
    + repeat split; auto; discriminate.
  - congruence.
Qed.

Lemma handle_message_fuel_agree (n : nat) :
  forall (m : nat) (text : string) (task_id context_id : option string) (w : World),
    lines_left w < n -> lines_left w < m ->
    fueled n text task_id context_id w = fueled m text task_id context_id w /\
    lines_left (world_of (fueled n text task_id context_id w)) <= lines_left w /\
    result_of (fueled n text task_id context_id w) <> OutOfFuel.
Proof.
  induction n as [| n IH]; intros m text task_id context_id w Hn Hm; [lia |].
  destruct m as [| m]; [lia |].
  assert (H : agree_below (lines_left w) (fueled n) (fueled m)).
  { intros t a b w1 Hw1. apply IH; lia. }
  destruct (handle_message_body_agree _ _ text task_id context_id w H)
    as (Heq & Hle & Hfuel).
  unfold fueled, body in *. simpl. unfold bracket. rewrite <- Heq.
  destruct (handle_message_body _ _ _ text task_id context_id w)
    as [[r w1] ev1].
  simpl in *. auto.
Qed.

End Fuel.

(** ** The recursive equations of the source *)

Section Equations.

Variable uuid4_hex : nat -> string.
Variable agent_stream : list Message -> Message -> Stream.

Let handle := handle_message uuid4_hex agent_stream.

Lemma handle_message_total (text : string) (task_id context_id : option string)
    (w : World) :
  lines_left (world_of (handle text task_id context_id w)) <= lines_left w /\
  result_of (handle text task_id context_id w) <> OutOfFuel.
Proof.
  unfold handle, handle_message.
  apply (handle_message_fuel_agree uuid4_hex agent_stream
           (S (lines_left w)) (S (lines_left w))); lia.
Qed.

Lemma handle_message_fuel_enough (n : nat) (text : string)
    (task_id context_id : option string) (w : World) :
  lines_left w < n ->
  handle_message_fuel uuid4_hex agent_stream n text task_id context_id w =
    handle text task_id context_id w.
Proof.
  intros Hn. unfold handle, handle_message.
  apply (handle_message_fuel_agree uuid4_hex agent_stream); [exact Hn |].
  unfold lines_left. lia.
Qed.

Lemma agree_below_handle (bound n : nat) :
  bound <= n ->
  agree_below bound (handle_message_fuel uuid4_hex agent_stream n) handle.
Proof.
  intros Hle t a b w Hw.
  rewrite handle_message_fuel_enough by lia.
  split; [reflexivity | apply handle_message_total].
Qed.

(** [handle_message] satisfies the equation the source defines it by. *)
Lemma handle_message_unfold (text : string) (task_id context_id : option string)
    (w : World) :
  handle text task_id context_id w =
    bracket text task_id context_id
      (handle_message_body uuid4_hex agent_stream handle
         text task_id context_id) w.
Proof.
  unfold handle at 1. unfold handle_message. simpl. unfold bracket.
  destruct (handle_message_body_agree uuid4_hex agent_stream
              (handle_message_fuel uuid4_hex agent_stream (lines_left w))
              handle text task_id context_id w) as (Heq & _).
  { apply agree_below_handle. lia. }
  unfold lines_left in Heq. rewrite Heq. reflexivity.
Qed.

Lemma query_loop_agree (n : nat) :
  forall (m : nat) (w : World),
    lines_left w < n -> lines_left w < m ->
    query_loop uuid4_hex agent_stream n w = query_loop uuid4_hex agent_stream m w /\
    result_of (query_loop uuid4_hex agent_stream n w) <> OutOfFuel.
Proof.
  induction n as [| n IH]; intros m w Hn Hm; [lia |].
  destruct m as [| m]; [lia |]. simpl. unfold bind, input, lines_left in *.
  destruct (inputs w) as [| line rest] eqn:Hin; simpl in *.
  - split; [reflexivity | discriminate].
  - destruct (is_exit (Text.strip line)).
    + unfold print, emit. simpl. split; [reflexivity | discriminate].
    + fold handle.
      pose proof (handle_message_total (Text.strip line) None None
                    (mkWorld rest (uuid_count w) (sent w))) as [Hle Hfuel].
      destruct (handle (Text.strip line) None None _) as [[r w1] ev1].
      unfold lines_left in *; simpl in *.
      destruct r as [[] | e |]; simpl.
      * destruct (IH m w1) as [Heq Hf]; try lia. rewrite <- Heq.
        destruct (query_loop _ _ n w1) as [[r2 w2] ev2]. simpl in *. auto.
      * split; [reflexivity | discriminate].
      * congruence.
Qed.

(** The loop of [interactive_loop] satisfies the equation of a
    [while True] loop with the source's body. *)
Lemma while_true_unfold (w : World) :
  while_true uuid4_hex agent_stream w =
    (line <- input query_prompt ;;
     let query := Text.strip line in
     if is_exit query
     then print exiting_text
     else handle query None None ;; while_true uuid4_hex agent_stream) w.
Proof.
  unfold while_true at 1.
  remember (List.length (inputs w)) as n eqn:Hn.
  change (query_loop uuid4_hex agent_stream (S n)) with
    (line <- input query_prompt ;;
     let query := Text.strip line in
     if is_exit query
     then print exiting_text
     else handle query None None ;; query_loop uuid4_hex agent_stream n).
  unfold bind, input.
  destruct (inputs w) as [| line rest] eqn:Hin; [reflexivity |].
  cbv zeta. destruct (is_exit (Text.strip line)); [reflexivity |].
  pose proof (handle_message_total (Text.strip line) None None
                (mkWorld rest (uuid_count w) (sent w))) as [Hle _].
  destruct (handle (Text.strip line) None None _) as [[r w1] ev1].
  unfold lines_left in *; simpl in *.
  destruct r as [[] | e |]; try reflexivity.
  destruct (query_loop_agree n (S (List.length (inputs w1))) w1)
    as [Heq _]; unfold lines_left; try lia.
  unfold while_true. rewrite Heq. reflexivity.
Qed.

End Equations.

(** ** Outlines of runs *)

Lemma balanced_nil : balanced [].
Proof. intros depth rest. simpl. destruct (depth =? 0); reflexivity. Qed.

Lemma outline_from_plain (depth : nat) (ev : Event) (evs : list Event) :
  is_mark ev = false ->
  outline_from depth (ev :: evs) =
    (if depth =? 0 then [ev] else []) ++ outline_from depth evs.
Proof. destruct ev; simpl; intros H; try discriminate; reflexivity. Qed.

Lemma balanced_app (evs1 evs2 : list Event) :
  balanced evs1 -> balanced evs2 -> balanced (evs1 ++ evs2).
Proof.
  intros H1 H2 depth rest. unfold outline.
  rewrite <- app_assoc, H1, H2, (H1 0 evs2). simpl.
  destruct (depth =? 0); [apply app_assoc | reflexivity].
Qed.

Lemma outline_app (evs1 evs2 : list Event) :
  balanced evs1 -> outline (evs1 ++ evs2) = outline evs1 ++ outline evs2.
Proof. intros H. unfold outline at 1. rewrite H. reflexivity. Qed.

Lemma balanced_plain (evs : list Event) :
  forallb (fun ev => negb (is_mark ev)) evs = true ->
  balanced evs /\ outline evs = evs.
Proof.
  induction evs as [| ev evs IH]; simpl; intros H.
  - split; [apply balanced_nil | reflexivity].
  - apply andb_true_iff in H as [Hev Hevs]. apply negb_true_iff in Hev.
    destruct (IH Hevs) as [Hb Ho]. split.
    + intros depth rest. unfold outline.
      change ((ev :: evs) ++ rest) with (ev :: evs ++ rest).
      rewrite !outline_from_plain by exact Hev. rewrite Hb. simpl.
      fold (outline evs). destruct (depth =? 0); reflexivity.
    + unfold outline. rewrite outline_from_plain by exact Hev. simpl.
      fold (outline evs). rewrite Ho. reflexivity.
Qed.

Lemma outline_call (text : string) (task_id context_id : option string)
    (evs : list Event) (r : Result unit) :
  balanced evs ->
  outline (EvCall text task_id context_id :: evs ++ [EvReturn r]) =
    [EvCall text task_id context_id; EvReturn r].
Proof. intros H. unfold outline. simpl. rewrite H. reflexivity. Qed.

Lemma balanced_call (text : string) (task_id context_id : option string)
    (evs : list Event) (r : Result unit) :
  balanced evs ->
  balanced (EvCall text task_id context_id :: evs ++ [EvReturn r]).
Proof.
  intros H depth rest. rewrite outline_call by exact H.
  simpl. rewrite <- app_assoc, H. simpl.
  destruct depth as [| depth]; reflexivity.
Qed.

Lemma rendered_plain (response : PyVal) (title : string) (w : World) :
  forallb is_output (events_of (print_json_response response title w)) = true /\
  forallb (fun ev => negb (is_mark ev))
    (events_of (print_json_response response title w)) = true.
Proof.
  rewrite print_json_response_run. simpl.
  destruct (formatted response); split; reflexivity.
Qed.

Section Outlines.

Variable uuid4_hex : nat -> string.
Variable agent_stream : list Message -> Message -> Stream.

Let handle := handle_message uuid4_hex agent_stream.

Lemma handle_item_balanced (item : Item) (w : World) :
  (forall t a b w1, lines_left w1 < lines_left w ->
                    balanced (events_of (handle t a b w1))) ->
  balanced (events_of (handle_item handle item w)) /\
  lines_left (world_of (handle_item handle item w)) <= lines_left w.
Proof.
  intros IH. split.
  2: { apply (handle_item_agree handle handle).
       intros t a b w1 _. split; [reflexivity |].
       apply handle_message_total. }
  destruct item as [task update | reply]; simpl.
  - unfold bind.
    destruct (rendered_plain (streaming_payload task update) "Streaming Update" w)
      as [_ Hplain].
    apply balanced_plain in Hplain as [Hshown _].
    unfold streaming_payload in Hshown.
    destruct (print_json_response _ "Streaming Update" w) as [[r0 w0] shown] eqn:Hp.
    rewrite print_json_response_run in Hp. injection Hp as <- <- Hshown'.
    simpl in Hshown.
    destruct (TaskState_eqb (state (task_status task)) input_required).
    + unfold input. destruct (inputs w) as [| line rest] eqn:Hin; simpl.
      * apply balanced_app; [exact Hshown |].
        apply balanced_plain. reflexivity.
      * specialize (IH line (Some (task_id task)) (Some (task_context_id task))
                      (mkWorld rest (uuid_count w) (sent w))).
        destruct (handle line _ _ _) as [[r w1] ev1]. simpl in *.
        apply balanced_app; [exact Hshown |].
        apply (balanced_app [_]); [apply balanced_plain; reflexivity |].
        apply IH. unfold lines_left. simpl. rewrite Hin. simpl. lia.
    + simpl. rewrite app_nil_r. exact Hshown.
  - apply balanced_plain, rendered_plain.
Qed.

Lemma drain_balanced (stream : Stream) :
  forall (count : nat) (w : World),
    (forall t a b w1, lines_left w1 < lines_left w ->
                      balanced (events_of (handle t a b w1))) ->
    balanced (events_of (drain handle stream count w)).
Proof.
  induction stream as [| e | item rest IHs]; intros count w IH; simpl;
    try apply balanced_nil.
  unfold bind.
  destruct (handle_item_balanced item w IH) as [Hb Hle].
  destruct (handle_item handle item w) as [[r w1] ev1]. simpl in *.
  destruct r as [[] | e |]; simpl; try exact Hb.
  specialize (IHs (sent w1) (S count) w1).
  destruct (drain handle (rest (sent w1)) (S count) w1) as [[r2 w2] ev2].
  simpl in *. apply balanced_app; [exact Hb |].
  apply IHs. intros t a b w' Hw'. apply IH. lia.
Qed.

Lemma handle_message_body_balanced (text : string)
    (task_id context_id : option string) (w : World) :
  (forall t a b w1, lines_left w1 < lines_left w ->
                    balanced (events_of (handle t a b w1))) ->
  balanced (events_of (handle_message_body uuid4_hex agent_stream handle
                         text task_id context_id w)).
Proof.
  intros IH. unfold handle_message_body. run_step. simpl.
  match goal with
  | |- context [drain handle ?s 0 ?w0] =>
      pose proof (drain_balanced s 0 w0 IH) as Hd;
      destruct (drain handle s 0 w0) as [[r w1] ev1]
  end.
  simpl in Hd.
  assert (Hsend : forall evs, balanced evs -> balanced (EvSend
            (mkMessage user [mkPart "text" text] (uuid4_hex (uuid_count w))
               (if Text.truthy task_id then task_id else None)
               (if Text.truthy context_id then context_id else None)) :: evs)).
  { intros evs H. apply (balanced_app [_]); [| exact H].
    apply balanced_plain. reflexivity. }
  destruct r as [n | e |]; simpl.
  - destruct (n =? 0); simpl; apply Hsend.
    + apply balanced_app; [exact Hd | apply balanced_plain; reflexivity].
    + rewrite app_nil_r. exact Hd.
  - destruct (isinstance_RuntimeError e); simpl; [| apply Hsend, Hd].
    destruct (Text.contains _ _); simpl.
    + apply (Hsend (ev1 ++ [_])).
      apply balanced_app; [exact Hd | apply balanced_plain; reflexivity].
    + rewrite app_nil_r. apply (Hsend ev1), Hd.
  - apply Hsend, Hd.
Qed.

Lemma handle_message_balanced (n : nat) :
  forall (text : string) (task_id context_id : option string) (w : World),
    lines_left w < n ->
    balanced (events_of (handle text task_id context_id w)).
Proof.
  induction n as [| n IH]; intros text task_id context_id w Hn; [lia |].
  unfold handle. rewrite handle_message_unfold. unfold bracket. fold handle.
  assert (Hb := handle_message_body_balanced text task_id context_id w).
  destruct (handle_message_body _ _ handle text task_id context_id w)
    as [[r w1] ev1]. simpl in *.
  apply balanced_call, Hb. intros t a b w' Hw'. apply IH. lia.
Qed.

(** Seen from outside, a call of [handle_message] is its two marks. *)
Lemma handle_message_outline (text : string) (task_id context_id : option string)
    (w : World) :
  balanced (events_of (handle text task_id context_id w)) /\
  outline (events_of (handle text task_id context_id w)) =
    [EvCall text task_id context_id;
     EvReturn (result_of (handle text task_id context_id w))].
Proof.
  split; [apply (handle_message_balanced (S (lines_left w))); lia |].
  unfold handle. rewrite handle_message_unfold. unfold bracket. fold handle.
  assert (Hb := handle_message_body_balanced text task_id context_id w).
  destruct (handle_message_body _ _ handle text task_id context_id w)
    as [[r w1] ev1]. simpl in *.
  apply outline_call, Hb. intros t a b w' _.
  apply (handle_message_balanced (S (lines_left w'))). lia.
Qed.

End Outlines.

(** ** Invariants of a session

    The driver changes the world in two ways only: it reads a line,
    and it builds and submits a message.  A property of worlds kept by
    both is kept by every run. *)

Section Invariant.

Variable uuid4_hex : nat -> string.
Variable agent_stream : list Message -> Message -> Stream.
Variable P : World -> Prop.

Hypothesis P_input :
  forall w line rest,
    P w -> inputs w = line :: rest -> P (mkWorld rest (uuid_count w) (sent w)).

Hypothesis P_submit :
  forall w text task_id context_id,
    P w ->
    P (mkWorld (inputs w) (S (uuid_count w))
         (sent w ++ [message_at uuid4_hex (uuid_count w) text task_id context_id])).

Let handle := handle_message uuid4_hex agent_stream.

Lemma handle_item_preserves (item : Item) (w : World) :
  (forall t a b w1, lines_left w1 < lines_left w -> P w1 ->
                    P (world_of (handle t a b w1))) ->
  P w -> P (world_of (handle_item handle item w)).
Proof.
  intros IH Hw. destruct item as [task update | reply]; simpl.
  - unfold bind. rewrite print_json_response_run.
    destruct (TaskState_eqb (state (task_status task)) input_required);
      [| exact Hw].
    unfold input. destruct (inputs w) as [| line rest] eqn:Hin; [exact Hw |].
    specialize (IH line (Some (task_id task)) (Some (task_context_id task))
                  (mkWorld rest (uuid_count w) (sent w))).
    destruct (handle line _ _ _) as [[r w1] ev1]. simpl in *.
    apply IH; [| eapply P_input; eassumption].
    unfold lines_left. simpl. rewrite Hin. simpl. lia.
  - rewrite print_json_response_run. exact Hw.
Qed.

Lemma drain_preserves (stream : Stream) :
  forall (count : nat) (w : World),
    (forall t a b w1, lines_left w1 < lines_left w -> P w1 ->
                      P (world_of (handle t a b w1))) ->
    P w -> P (world_of (drain handle stream count w)).
Proof.
  induction stream as [| e | item rest IHs]; intros count w IH Hw; simpl;
    try exact Hw.
  unfold bind.
  pose proof (handle_item_preserves item w IH Hw) as Hitem.
  destruct (handle_item_balanced uuid4_hex agent_stream item w) as [_ Hle].
  { intros t a b w1 _. apply handle_message_outline. }
  fold handle in Hle.
  destruct (handle_item handle item w) as [[r w1] ev1]. simpl in *.
  destruct r as [[] | e |]; try exact Hitem.
  specialize (IHs (sent w1) (S count) w1).
  destruct (drain handle (rest (sent w1)) (S count) w1) as [[r2 w2] ev2].
  simpl in *. apply IHs; [| exact Hitem].
  intros t a b w' Hw'. apply IH. lia.
Qed.

Lemma handle_message_preserves_below (n : nat) :
  forall (text : string) (task_id context_id : option string) (w : World),
    lines_left w < n -> P w -> P (world_of (handle text task_id context_id w)).
Proof.
  induction n as [| n IH]; intros text task_id context_id w Hn Hw; [lia |].
  unfold handle. rewrite handle_message_unfold. fold handle.
  unfold bracket, handle_message_body. run_step. simpl.
  match goal with
  | |- context [drain handle ?s 0 ?w0] =>
      pose proof (drain_preserves s 0 w0) as Hd;
      destruct (drain handle s 0 w0) as [[r w1] ev1]
  end.
  simpl in Hd.
  assert (Hw1 : P w1).
  { apply Hd; [| apply (P_submit w text task_id context_id Hw)].
    intros t a b w' Hw'. apply IH. unfold lines_left in *. simpl in *. lia. }
  destruct r as [k | e |]; simpl.
  - destruct (k =? 0); exact Hw1.
  - destruct (isinstance_RuntimeError e); simpl; [| exact Hw1].
    destruct (Text.contains _ _); exact Hw1.
  - exact Hw1.
Qed.

Lemma handle_message_preserves (text : string)
    (task_id context_id : option string) (w : World) :
  P w -> P (world_of (handle text task_id context_id w)).
Proof. apply (handle_message_preserves_below (S (lines_left w))). lia. Qed.

Lemma query_loop_preserves (n : nat) :
  forall w, P w -> P (world_of (query_loop uuid4_hex agent_stream n w)).
Proof.
  induction n as [| n IH]; intros w Hw; simpl; [exact Hw |].
  unfold bind, input.
  destruct (inputs w) as [| line rest] eqn:Hin; [exact Hw |].
  assert (H0 : P (mkWorld rest (uuid_count w) (sent w)))
    by (eapply P_input; eassumption).
  destruct (is_exit (Text.strip line)); [exact H0 |].
  pose proof (handle_message_preserves (Text.strip line) None None _ H0) as H1.
  fold handle.
  destruct (handle (Text.strip line) None None _) as [[r w1] ev1]. simpl in *.
  destruct r as [[] | e |]; try exact H1.
  specialize (IH w1 H1).
  destruct (query_loop uuid4_hex agent_stream n w1) as [[r2 w2] ev2].
  exact IH.
Qed.

Lemma interactive_loop_preserves (supports_streaming : bool) (w : World) :
  P w ->
  P (world_of (interactive_loop uuid4_hex agent_stream supports_streaming w)).
Proof.
  intros Hw. unfold interactive_loop, bind, print, emit, while_true.
  pose proof (query_loop_preserves (S (List.length (inputs w))) w Hw) as H.
  destruct (query_loop _ _ _ w) as [[r w1] ev1]. exact H.
Qed.

End Invariant.

Lemma consistent_submit (uuid4_hex : nat -> string) (w : World)
    (text : string) (task_id context_id : option string) :
  (forall i j, uuid4_hex i = uuid4_hex j -> i = j) ->
  consistent uuid4_hex w ->
  consistent uuid4_hex
    (mkWorld (inputs w) (S (uuid_count w))
       (sent w ++ [message_at uuid4_hex (uuid_count w) text task_id context_id])).
Proof.
  intros Hinj [Hnd Hknown]. split; simpl.
  - rewrite map_app. apply NoDup_app; [exact Hnd | |].
    + simpl. constructor; [intros [] | constructor].
    + intros x Hx [Hin | []]. simpl in Hin. subst x.
      apply in_map_iff in Hx as (m & Hm & Hsent).
      destruct (Hknown m Hsent) as (i & Hi & Hid).
      rewrite Hid in Hm. apply Hinj in Hm. lia.
  - intros m Hm. apply in_app_iff in Hm as [Hm | [<- | []]].
    + destruct (Hknown m Hm) as (i & Hi & Hid). exists i. split; [lia | exact Hid].
    + exists (uuid_count w). split; [lia | reflexivity].
Qed.

(** * The claims *)

(** ** build_message *)

Lemma build_message_run (uuid4_hex : nat -> string) (text : string)
    (task_id context_id : option string) (w : World) :
  build_message uuid4_hex text task_id context_id w =
    (Ok (message_at uuid4_hex (uuid_count w) text task_id context_id),
     mkWorld (inputs w) (S (uuid_count w)) (sent w), []).
Proof. reflexivity. Qed.

Lemma tally_id_length (n : nat) : String.length (Demo.tally_id n) = n + 2.
Proof. induction n as [| n IH]; simpl; [reflexivity | rewrite IH; reflexivity]. Qed.

Lemma tally_id_inj (i j : nat) : Demo.tally_id i = Demo.tally_id j -> i = j.
Proof.
  intros H. apply (f_equal String.length) in H.
  rewrite !tally_id_length in H. lia.
Qed.

(** C2, as amended.  A message built for a new conversation (no task
    or context identifier supplied) has [None] for [taskId] and
    [contextId]; a message built as a follow-up with both identifiers
    supplied and neither of them the empty string carries exactly the
    identifiers supplied. *)
Theorem build_message_correlation_ids (uuid4_hex : nat -> string)
    (text : string) (w : World) :
  (exists m w',
      build_message uuid4_hex text None None w = (Ok m, w', []) /\
      role m = user /\ parts m = [mkPart "text" text] /\
      taskId m = None /\ contextId m = None) /\
  (forall t c,
      t <> "" -> c <> "" ->
      exists m w',
        build_message uuid4_hex text (Some t) (Some c) w = (Ok m, w', []) /\
        role m = user /\ parts m = [mkPart "text" text] /\
        taskId m = Some t /\ contextId m = Some c).
Proof.
  split.
  - eexists _, _. rewrite build_message_run. repeat split.
  - intros t c Ht Hc. eexists _, _. rewrite build_message_run.
    destruct t; [congruence |]. destruct c; [congruence |]. repeat split.
Qed.

Lemma build_message_correlation_ids_witness :
  "t1" <> "" /\ "c1" <> "" /\
  exists m w',
    build_message Demo.tally_id "continue" (Some "t1") (Some "c1") (Demo.start [])
      = (Ok m, w', []) /\
    role m = user /\ parts m = [mkPart "text" "continue"] /\
    taskId m = Some "t1" /\ contextId m = Some "c1".
Proof.
  split; [discriminate |]. split; [discriminate |].
  apply (build_message_correlation_ids Demo.tally_id "continue" (Demo.start []));
    discriminate.
Defined.

(** C2, as stated, fails: a follow-up built with both identifiers
    supplied as the empty string, which is not [None], carries neither
    of them. *)
Lemma build_message_follow_up_empty_ids :
  exists m w',
    build_message Demo.tally_id "continue" (Some "") (Some "") (Demo.start [])
      = (Ok m, w', []) /\
    taskId m <> Some "" /\ contextId m <> Some "".
Proof. eexists _, _. rewrite build_message_run. repeat split; discriminate. Qed.

(** C9.  Provided the identifier generator never returns the same
    identifier twice, two invocations of [build_message], the second
    in a world reached after the first returned, build messages with
    distinct [messageId]s: every invocation draws an identifier of its
    own.  Invocations made in the course of a session are of this
    kind: the count of identifiers generated never goes down, and the
    messages submitted by the end of [interactive_loop] have pairwise
    distinct identifiers. *)
Theorem build_message_distinct_ids (uuid4_hex : nat -> string) :
  (forall i j, uuid4_hex i = uuid4_hex j -> i = j) ->
  (forall (text1 text2 : string) (task1 context1 task2 context2 : option string)
          (w1 w1' w2 w2' : World) (m1 m2 : Message),
      build_message uuid4_hex text1 task1 context1 w1 = (Ok m1, w1', []) ->
      uuid_count w1' <= uuid_count w2 ->
      build_message uuid4_hex text2 task2 context2 w2 = (Ok m2, w2', []) ->
      messageId m1 <> messageId m2) /\
  (forall (agent_stream : list Message -> Message -> Stream)
          (supports_streaming : bool) (w : World),
      consistent uuid4_hex w ->
      let w' :=
        world_of (interactive_loop uuid4_hex agent_stream supports_streaming w) in
      uuid_count w <= uuid_count w' /\
      NoDup (map messageId (sent w'))).
Proof.
  intros Hinj. split.
  - intros text1 text2 task1 context1 task2 context2 w1 w1' w2 w2' m1 m2
      H1 Hlater H2.
    rewrite build_message_run in H1, H2.
    injection H1 as <- <-. injection H2 as <- <-. simpl in *.
    intros Heq. apply Hinj in Heq. lia.
  - intros agent_stream supports_streaming w Hw. split.
    + apply (interactive_loop_preserves uuid4_hex agent_stream
               (fun w' => uuid_count w <= uuid_count w')); simpl; intros; lia.
    + apply (interactive_loop_preserves uuid4_hex agent_stream
               (consistent uuid4_hex)); [| | exact Hw].
      * intros w0 line rest H0 _. exact H0.
      * intros w0 text task_id context_id H0.
        apply consistent_submit; assumption.
Qed.

Lemma build_message_distinct_ids_witness :
  messageId (message_at Demo.tally_id 0 "What time is it?" None None) <>
  messageId (message_at Demo.tally_id 1 "What time is it?" None None) /\
  NoDup (map messageId
           (sent (world_of (interactive_loop Demo.tally_id Demo.asking_agent true
                              (Demo.start ["book a room"; "continue"; "exit"]))))).
Proof.
  split.
  - apply (proj1 (build_message_distinct_ids Demo.tally_id tally_id_inj)
             "What time is it?" "What time is it?" None None None None
             (Demo.start []) (mkWorld [] 1 []) (mkWorld [] 1 []) (mkWorld [] 2 [])).
    + reflexivity.
    + simpl. lia.
    + reflexivity.
  - apply (proj2 (build_message_distinct_ids Demo.tally_id tally_id_inj)
             Demo.asking_agent true
             (Demo.start ["book a room"; "continue"; "exit"])).
    split; simpl; [constructor | intros m []].
Defined.

(** C10.  When the task identifier supplied to [build_message] is the
    empty string the message carries [None] for [taskId], and likewise
    for the context identifier; a follow-up supplied with two empty
    strings is the very message a new conversation gets. *)
Theorem build_message_empty_string_ids (uuid4_hex : nat -> string)
    (text : string) (w : World) :
  (forall context_id, exists m w',
      build_message uuid4_hex text (Some "") context_id w = (Ok m, w', []) /\
      taskId m = None) /\
  (forall task_id, exists m w',
      build_message uuid4_hex text task_id (Some "") w = (Ok m, w', []) /\
      contextId m = None) /\
  build_message uuid4_hex text (Some "") (Some "") w =
    build_message uuid4_hex text None None w.
Proof.
  repeat split.
  - intros context_id. eexists _, _. rewrite build_message_run. split; reflexivity.
  - intros task_id. eexists _, _. rewrite build_message_run. split; reflexivity.
Qed.

(** ** interactive_loop *)

Lemma isspace_lower_char (c : ascii) :
  Text.isspace c = true -> Text.isspace (Text.lower_char c) = true.
Proof.
  destruct c as [[] [] [] [] [] [] [] []]; vm_compute; intros H; exact H.
Qed.

Lemma lower_char_not_space (c x : ascii) :
  Text.lower_char c = x -> Text.isspace x = false -> Text.isspace c = false.
Proof.
  intros <- Hx. destruct (Text.isspace c) eqn:Hc; [| reflexivity].
  apply isspace_lower_char in Hc. congruence.
Qed.

Lemma strip_four (c1 c2 c3 c4 : ascii) :
  Text.isspace c1 = false -> Text.isspace c4 = false ->
  Text.strip (String c1 (String c2 (String c3 (String c4 EmptyString)))) =
    String c1 (String c2 (String c3 (String c4 EmptyString))).
Proof.
  intros H1 H4. unfold Text.strip. simpl. rewrite H1. simpl. rewrite H4.
  reflexivity.
Qed.

(** A line that is an exit keyword up to case has no blank to strip. *)
Lemma strip_exit_keyword (line : string) :
  In (Text.lower line) exit_keywords -> Text.strip line = line.
Proof.
  intros [H | [H | []]]; symmetry in H;
    destruct line as [| c1 [| c2 [| c3 [| c4 [| c5 line]]]]];
    try discriminate H; simpl in H;
    injection H as H1 H2 H3 H4;
    apply strip_four;
    (eapply lower_char_not_space; [eassumption | reflexivity]).
Qed.

Lemma is_exit_keyword (line : string) :
  In (Text.lower line) exit_keywords -> is_exit (Text.strip line) = true.
Proof.
  intros H. rewrite (strip_exit_keyword line H). unfold is_exit.
  apply existsb_exists. exists (Text.lower line). split; [exact H |].
  apply String.eqb_refl.
Qed.

(** Every call of [handle_message] begins by submitting the message
    built from its arguments. *)
Lemma handle_message_starts (uuid4_hex : nat -> string)
    (agent_stream : list Message -> Message -> Stream)
    (text : string) (task_id context_id : option string) (w : World) :
  exists inner,
    events_of (handle_message uuid4_hex agent_stream text task_id context_id w) =
      EvCall text task_id context_id ::
      EvSend (message_at uuid4_hex (uuid_count w) text task_id context_id) ::
      inner.
Proof.
  rewrite handle_message_unfold. unfold bracket, handle_message_body.
  run_step. simpl.
  match goal with
  | |- context [drain ?h ?s 0 ?w0] => destruct (drain h s 0 w0) as [[r w1] ev1]
  end.
  destruct r as [n | e |]; simpl.
  - destruct (n =? 0); simpl; eexists; reflexivity.
  - destruct (isinstance_RuntimeError e); simpl; [| eexists; reflexivity].
    destruct (Text.contains _ _); simpl; eexists; reflexivity.
  - eexists; reflexivity.
Qed.

(** C4.  When the line the loop reads equals "exit" or "quit" up to
    case, the loop prints its goodbye and returns normally: nothing is
    submitted, [handle_message] is not called, and the lines that
    follow stay unread.  The same holds for [interactive_loop] when it
    is the first line. *)
Theorem exit_keyword_ends_loop (uuid4_hex : nat -> string)
    (agent_stream : list Message -> Message -> Stream)
    (supports_streaming : bool) (line : string) (lines : list string)
    (w : World) :
  Text.lower line = "exit" \/ Text.lower line = "quit" ->
  inputs w = line :: lines ->
  while_true uuid4_hex agent_stream w =
    (Ok tt, mkWorld lines (uuid_count w) (sent w),
     [EvInput query_prompt (Some line); EvPrint exiting_text]) /\
  interactive_loop uuid4_hex agent_stream supports_streaming w =
    (Ok tt, mkWorld lines (uuid_count w) (sent w),
     [EvPrint instructions_text;
      EvInput query_prompt (Some line); EvPrint exiting_text]).
Proof.
  intros Hkey Hin.
  assert (Hexit : is_exit (Text.strip line) = true).
  { apply is_exit_keyword. simpl. destruct Hkey as [-> | ->]; auto. }
  assert (Hloop : while_true uuid4_hex agent_stream w =
                    (Ok tt, mkWorld lines (uuid_count w) (sent w),
                     [EvInput query_prompt (Some line); EvPrint exiting_text])).
  { rewrite while_true_unfold. unfold bind, input. rewrite Hin.
    cbv zeta. rewrite Hexit. reflexivity. }
  split; [exact Hloop |].
  unfold interactive_loop, bind, print, emit. rewrite Hloop. reflexivity.
Qed.

Lemma exit_keyword_ends_loop_witness :
  (Text.lower "EXIT" = "exit" \/ Text.lower "EXIT" = "quit") /\
  inputs (Demo.start ["EXIT"; "What time is it?"]) = "EXIT" :: ["What time is it?"] /\
  while_true Demo.tally_id Demo.replying_agent
    (Demo.start ["EXIT"; "What time is it?"]) =
    (Ok tt, mkWorld ["What time is it?"] 0 [],
     [EvInput query_prompt (Some "EXIT"); EvPrint exiting_text]).
Proof.
  split; [left; reflexivity |]. split; [reflexivity |].
  apply (exit_keyword_ends_loop Demo.tally_id Demo.replying_agent true
           "EXIT" ["What time is it?"] (Demo.start ["EXIT"; "What time is it?"])).
  - left. reflexivity.
  - reflexivity.
Defined.

(** C5, as amended.  When the line the loop reads, with the blanks
    around it removed, is not "exit" or "quit" up to case, the loop
    calls [handle_message] exactly once before it does anything else:
    with the stripped line as text and no correlation identifiers, so
    that the message submitted has [None] for [taskId] and
    [contextId].  When the call returns the loop goes on from the
    world the call left; when it raises, so does the loop. *)
Theorem query_line_submitted_once (uuid4_hex : nat -> string)
    (agent_stream : list Message -> Message -> Stream)
    (line : string) (lines : list string) (w : World) :
  is_exit (Text.strip line) = false ->
  inputs w = line :: lines ->
  let query := Text.strip line in
  let message :=
    mkMessage user [mkPart "text" query] (uuid4_hex (uuid_count w)) None None in
  let call :=
    handle_message uuid4_hex agent_stream query None None
      (mkWorld lines (uuid_count w) (sent w)) in
  (exists inner,
      events_of call = EvCall query None None :: EvSend message :: inner) /\
  outline (events_of (while_true uuid4_hex agent_stream w)) =
    [EvInput query_prompt (Some line);
     EvCall query None None; EvReturn (result_of call)] ++
    match result_of call with
    | Ok _ => outline (events_of (while_true uuid4_hex agent_stream (world_of call)))
    | _ => []
    end /\
  match result_of call with
  | Ok _ =>
      while_true uuid4_hex agent_stream w =
        prepend (EvInput query_prompt (Some line) :: events_of call)
          (while_true uuid4_hex agent_stream (world_of call))
  | Raise e =>
      while_true uuid4_hex agent_stream w =
        (Raise e, world_of call, EvInput query_prompt (Some line) :: events_of call)
  | OutOfFuel => False
  end.
Proof.
  intros Hexit Hin. cbv zeta.
  set (query := Text.strip line) in *.
  split.
  { exact (handle_message_starts uuid4_hex agent_stream query None None
             (mkWorld lines (uuid_count w) (sent w))). }
  destruct (handle_message_outline uuid4_hex agent_stream query None None
              (mkWorld lines (uuid_count w) (sent w))) as [Hbal Hout].
  destruct (handle_message_total uuid4_hex agent_stream query None None
              (mkWorld lines (uuid_count w) (sent w))) as [_ Hfuel].
  rewrite while_true_unfold. unfold bind, input. rewrite Hin. cbv zeta.
  fold query. rewrite Hexit.
  set (call := handle_message uuid4_hex agent_stream query None None
                 (mkWorld lines (uuid_count w) (sent w))) in *.
  destruct call as [[r w1] ev1]. simpl in *.
  destruct r as [[] | e |]; simpl.
  - destruct (while_true uuid4_hex agent_stream w1) as [[r2 w2] ev2]. simpl.
    split; [| reflexivity].
    change (EvInput query_prompt (Some line) :: ev1 ++ ev2)
      with ([EvInput query_prompt (Some line)] ++ ev1 ++ ev2).
    rewrite outline_app by (apply balanced_plain; reflexivity).
    rewrite outline_app by exact Hbal. rewrite Hout. reflexivity.
  - split; [| reflexivity].
    change (EvInput query_prompt (Some line) :: ev1)
      with ([EvInput query_prompt (Some line)] ++ ev1).
    rewrite outline_app by (apply balanced_plain; reflexivity).
    rewrite Hout. reflexivity.
  - congruence.
Qed.

Lemma query_line_submitted_once_witness :
  is_exit (Text.strip "  What time is it? ") = false /\
  outline (events_of (while_true Demo.tally_id Demo.replying_agent
                        (Demo.start ["  What time is it? "; "quit"]))) =
    [EvInput query_prompt (Some "  What time is it? ");
     EvCall "What time is it?" None None; EvReturn (Ok tt);
     EvInput query_prompt (Some "quit"); EvPrint exiting_text].
Proof.
  split; [reflexivity |].
  destruct (query_line_submitted_once Demo.tally_id Demo.replying_agent
              "  What time is it? " ["quit"]
              (Demo.start ["  What time is it? "; "quit"])
              eq_refl eq_refl) as (_ & Hout & _).
  rewrite Hout. reflexivity.
Defined.

(** C5, as stated, fails: the line " exit" is not an exit keyword,
    whatever the case, yet the loop ends on it and nothing is
    submitted. *)
Lemma padded_exit_not_submitted :
  ~ In (Text.lower " exit") exit_keywords /\
  while_true Demo.tally_id Demo.replying_agent (Demo.start [" exit"]) =
    (Ok tt, Demo.start [],
     [EvInput query_prompt (Some " exit"); EvPrint exiting_text]).
Proof.
  split; [| reflexivity].
  intros [H | [H | []]]; discriminate H.
Qed.

(** ** handle_message *)

(** C6.  When the response sequence of a submission ends without
    yielding an item, [handle_message] prints the "no response"
    warning and returns normally: the message has been submitted, and
    nothing else was written or read. *)
Theorem no_response_reported (uuid4_hex : nat -> string)
    (agent_stream : list Message -> Message -> Stream)
    (text : string) (task_id context_id : option string) (w : World) :
  let message := message_at uuid4_hex (uuid_count w) text task_id context_id in
  agent_stream (sent w) message = Exhausted ->
  handle_message uuid4_hex agent_stream text task_id context_id w =
    (Ok tt,
     mkWorld (inputs w) (S (uuid_count w)) (sent w ++ [message]),
     [EvCall text task_id context_id; EvSend message;
      EvPrint no_response_text; EvReturn (Ok tt)]).
Proof.
  intros message Hstream. subst message. unfold message_at in *.
  rewrite handle_message_unfold.
  unfold bracket, handle_message_body. run_step. simpl.
  rewrite Hstream. reflexivity.
Qed.

Lemma no_response_reported_witness :
  Demo.silent_agent (sent (Demo.start []))
    (message_at Demo.tally_id 0 "What time is it?" None None) = Exhausted /\
  handle_message Demo.tally_id Demo.silent_agent "What time is it?" None None
    (Demo.start []) =
    (Ok tt,
     mkWorld [] 1 [message_at Demo.tally_id 0 "What time is it?" None None],
     [EvCall "What time is it?" None None;
      EvSend (message_at Demo.tally_id 0 "What time is it?" None None);
      EvPrint no_response_text; EvReturn (Ok tt)]).
Proof.
  split; [reflexivity |].
  apply (no_response_reported Demo.tally_id Demo.silent_agent
           "What time is it?" None None (Demo.start [])).
  reflexivity.
Defined.





(** C3.  When the loop of [handle_message] raises an error [e], then:
    if [e] is a [RuntimeError] whose text contains "StopAsyncIteration",
    [handle_message] prints the disconnect warning and returns
    normally; otherwise it raises [e] itself.  In the first case, when
    the call was made by the loop of [interactive_loop], that loop
    goes on to read the next line. *)
Theorem disconnect_is_recoverable (uuid4_hex : nat -> string)
    (agent_stream : list Message -> Message -> Stream) :
  let handle := handle_message uuid4_hex agent_stream in
  (forall (text : string) (task_id context_id : option string)
          (w w1 : World) (e : Exn) (ev : list Event),
      let message := message_at uuid4_hex (uuid_count w) text task_id context_id in
      drain handle (agent_stream (sent w) message) 0
        (mkWorld (inputs w) (S (uuid_count w)) (sent w ++ [message])) =
        (Raise e, w1, ev) ->
      handle text task_id context_id w =
        if recoverable e
        then (Ok tt, w1,
              EvCall text task_id context_id :: EvSend message :: ev ++
              [EvPrint disconnect_text; EvReturn (Ok tt)])
        else (Raise e, w1,
              EvCall text task_id context_id :: EvSend message :: ev ++
              [EvReturn (Raise e)])) /\
  (forall (line : string) (lines : list string) (w w1 : World) (e : Exn)
          (ev : list Event),
      let query := Text.strip line in
      let message := message_at uuid4_hex (uuid_count w) query None None in
      is_exit query = false ->
      inputs w = line :: lines ->
      drain handle (agent_stream (sent w) message) 0
        (mkWorld lines (S (uuid_count w)) (sent w ++ [message])) =
        (Raise e, w1, ev) ->
      recoverable e = true ->
      while_true uuid4_hex agent_stream w =
        prepend
          (EvInput query_prompt (Some line) ::
           EvCall query None None :: EvSend message :: ev ++
           [EvPrint disconnect_text; EvReturn (Ok tt)])
          (while_true uuid4_hex agent_stream w1)).
Proof.
  intros handle.
  assert (Hcall : forall text task_id context_id w w1 e ev,
    drain handle
      (agent_stream (sent w)
         (message_at uuid4_hex (uuid_count w) text task_id context_id)) 0
      (mkWorld (inputs w) (S (uuid_count w))
         (sent w ++ [message_at uuid4_hex (uuid_count w) text task_id context_id])) =
      (Raise e, w1, ev) ->
    handle text task_id context_id w =
      if recoverable e
      then (Ok tt, w1,
            EvCall text task_id context_id ::
            EvSend (message_at uuid4_hex (uuid_count w) text task_id context_id) ::
            ev ++ [EvPrint disconnect_text; EvReturn (Ok tt)])
      else (Raise e, w1,
            EvCall text task_id context_id ::
            EvSend (message_at uuid4_hex (uuid_count w) text task_id context_id) ::
            ev ++ [EvReturn (Raise e)])).
  { intros text task_id context_id w w1 e ev Hdrain.
    unfold handle. rewrite handle_message_unfold. fold handle.
    unfold bracket, handle_message_body, recoverable, message_at in *.
    run_step. simpl. rewrite Hdrain.
    destruct (isinstance_RuntimeError e); simpl; [| reflexivity].
    destruct (Text.contains _ _); simpl.
    - rewrite <- app_assoc. reflexivity.
    - rewrite app_nil_r. reflexivity. }
  split; [exact Hcall |].
  intros line lines w w1 e ev query message Hexit Hin Hdrain Hrec.
  rewrite while_true_unfold. unfold bind, input. rewrite Hin. cbv zeta.
  fold query. rewrite Hexit. fold handle.
  rewrite (Hcall query None None (mkWorld lines (uuid_count w) (sent w)) w1 e ev
             Hdrain).
  rewrite Hrec.
  destruct (while_true uuid4_hex agent_stream w1) as [[r2 w2] ev2].
  reflexivity.
Qed.

Lemma disconnect_is_recoverable_witness :
  handle_message Demo.tally_id Demo.dropping_agent "What time is it?" None None
    (Demo.start []) =
    (Ok tt,
     mkWorld [] 1 [message_at Demo.tally_id 0 "What time is it?" None None],
     [EvCall "What time is it?" None None;
      EvSend (message_at Demo.tally_id 0 "What time is it?" None None);
      EvPrint disconnect_text; EvReturn (Ok tt)]) /\
  handle_message Demo.tally_id Demo.refusing_agent "What time is it?" None None
    (Demo.start []) =
    (Raise Demo.refused,
     mkWorld [] 1 [message_at Demo.tally_id 0 "What time is it?" None None],
     [EvCall "What time is it?" None None;
      EvSend (message_at Demo.tally_id 0 "What time is it?" None None);
      EvReturn (Raise Demo.refused)]) /\
  while_true Demo.tally_id Demo.dropping_agent
    (Demo.start ["What time is it?"; "exit"]) =
    (Ok tt,
     mkWorld [] 1 [message_at Demo.tally_id 0 "What time is it?" None None],
     [EvInput query_prompt (Some "What time is it?");
      EvCall "What time is it?" None None;
      EvSend (message_at Demo.tally_id 0 "What time is it?" None None);
      EvPrint disconnect_text; EvReturn (Ok tt);
      EvInput query_prompt (Some "exit"); EvPrint exiting_text]).
Proof.
  split; [| split].
  - apply (proj1 (disconnect_is_recoverable Demo.tally_id Demo.dropping_agent)
             "What time is it?" None None (Demo.start [])
             (mkWorld [] 1 [message_at Demo.tally_id 0 "What time is it?" None None])
             Demo.disconnect []).
    reflexivity.
  - apply (proj1 (disconnect_is_recoverable Demo.tally_id Demo.refusing_agent)
             "What time is it?" None None (Demo.start [])
             (mkWorld [] 1 [message_at Demo.tally_id 0 "What time is it?" None None])
             Demo.refused []).
    reflexivity.
  - rewrite (proj2 (disconnect_is_recoverable Demo.tally_id Demo.dropping_agent)
               "What time is it?" ["exit"]
               (Demo.start ["What time is it?"; "exit"])
               (mkWorld ["exit"] 1
                  [message_at Demo.tally_id 0 "What time is it?" None None])
               Demo.disconnect [] eq_refl eq_refl eq_refl eq_refl).
    reflexivity.
Defined.

(** ** Two sessions, run from end to end *)

(** A question answered by one reply: one message is built, with no
    correlation identifiers, the reply is rendered, and the loop asks
    for the next query. *)
Example session_with_one_reply :
  interactive_loop Demo.tally_id Demo.replying_agent true
    (Demo.start ["What time is it?"; "exit"]) =
    (Ok tt,
     mkWorld [] 1 [mkMessage user [mkPart "text" "What time is it?"] "id" None None],
     [EvPrint instructions_text;
      EvInput query_prompt (Some "What time is it?");
      EvCall "What time is it?" None None;
      EvSend (mkMessage user [mkPart "text" "What time is it?"] "id" None None);
      EvPrint (title_line "Agent Reply");
      EvSyntax (json_text (PDict [("kind", PStr "message"); ("role", PStr "agent")]));
      EvReturn (Ok tt);
      EvInput query_prompt (Some "exit");
      EvPrint exiting_text]).
Proof. reflexivity. Qed.

(** A task that asks for more input and is completed by the follow-up:
    two messages are submitted, and the second carries the task and
    context identifiers of the first answer. *)
Example session_with_follow_up :
  sent (world_of (handle_message Demo.tally_id Demo.asking_agent "book a room"
                    None None (Demo.start ["continue"]))) =
    [mkMessage user [mkPart "text" "book a room"] "id" None None;
     mkMessage user [mkPart "text" "continue"] "0id" (Some "t1") (Some "c1")] /\
  outline (events_of (handle_message Demo.tally_id Demo.asking_agent "book a room"
                        None None (Demo.start ["continue"]))) =
    [EvCall "book a room" None None; EvReturn (Ok tt)] /\
  result_of (handle_message Demo.tally_id Demo.asking_agent "book a room"
               None None (Demo.start [])) =
    Raise (mkExn EOFError "EOF when reading a line").
Proof. repeat split. Qed.

(** An error that is not a disconnect leaves [handle_message] as it
    was raised. *)
Example session_refused :
  handle_message Demo.tally_id Demo.refusing_agent "What time is it?" None None
    (Demo.start []) =
    (Raise Demo.refused,
     mkWorld [] 1 [mkMessage user [mkPart "text" "What time is it?"] "id" None None],
     [EvCall "What time is it?" None None;
      EvSend (mkMessage user [mkPart "text" "What time is it?"] "id" None None);
      EvReturn (Raise Demo.refused)]).
Proof. reflexivity. Qed.

(** * Further properties *)

(** ** Every run is a sequence of atomic steps *)

Lemma steps_app (uuid4_hex : nat -> string) (w w1 w2 : World)
    (evs1 evs2 : list Event) :
  steps uuid4_hex w evs1 w1 -> steps uuid4_hex w1 evs2 w2 ->
  steps uuid4_hex w (evs1 ++ evs2) w2.
Proof.
  intros H1 H2. induction H1; simpl.
  - exact H2.
  - apply steps_quiet; auto.
  - eapply steps_input; eauto.
  - apply steps_eof; auto.
  - apply steps_submit; auto.
Qed.

Lemma steps_quiet_list (uuid4_hex : nat -> string) (w : World)
    (evs : list Event) :
  forallb (fun ev => is_output ev || is_mark ev) evs = true ->
  steps uuid4_hex w evs w.
Proof.
  induction evs as [| ev evs IH]; simpl; intros H; [constructor |].
  apply andb_true_iff in H as [Hev Hevs]. apply steps_quiet; auto.
Qed.

Lemma steps_rendered (uuid4_hex : nat -> string) (response : PyVal)
    (title : string) (w : World) :
  steps uuid4_hex w (events_of (print_json_response response title w)) w.
Proof.
  apply steps_quiet_list. rewrite print_json_response_run. simpl.
  destruct (formatted response); reflexivity.
Qed.

Section RunsAreSteps.

Variable uuid4_hex : nat -> string.
Variable agent_stream : list Message -> Message -> Stream.

Let handle := handle_message uuid4_hex agent_stream.

Lemma handle_item_steps (item : Item) (w : World) :
  (forall t a b w1, lines_left w1 < lines_left w ->
     steps uuid4_hex w1 (events_of (handle t a b w1)) (world_of (handle t a b w1))) ->
  steps uuid4_hex w (events_of (handle_item handle item w))
    (world_of (handle_item handle item w)).
Proof.
  intros IH. destruct item as [task update | reply]; simpl.
  - fold (streaming_payload task update). unfold bind.
    pose proof (steps_rendered uuid4_hex (streaming_payload task update)
                  "Streaming Update" w) as Hshown.
    destruct (print_json_response (streaming_payload task update)
                "Streaming Update" w) as [[r0 w0] shown] eqn:Hp.
    rewrite print_json_response_run in Hp. injection Hp as <- <- _.
    simpl in Hshown.
    destruct (TaskState_eqb (state (task_status task)) input_required).
    + unfold input. destruct (inputs w) as [| line rest] eqn:Hin; simpl.
      * eapply steps_app; [exact Hshown |].
        apply steps_eof; [exact Hin | constructor].
      * specialize (IH line (Some (task_id task)) (Some (task_context_id task))
                      (mkWorld rest (uuid_count w) (sent w))).
        destruct (handle line _ _ _) as [[r w1] ev1]. simpl in *.
        eapply steps_app; [exact Hshown |].
        eapply steps_input; [exact Hin |].
        apply IH. unfold lines_left. simpl. rewrite Hin. simpl. lia.
    + simpl. rewrite app_nil_r. exact Hshown.
  - pose proof (steps_rendered uuid4_hex reply "Agent Reply" w) as Hshown.
    rewrite print_json_response_run in *. exact Hshown.
Qed.

Lemma drain_steps (stream : Stream) :
  forall (count : nat) (w : World),
    (forall t a b w1, lines_left w1 < lines_left w ->
       steps uuid4_hex w1 (events_of (handle t a b w1)) (world_of (handle t a b w1))) ->
    steps uuid4_hex w (events_of (drain handle stream count w))
      (world_of (drain handle stream count w)).
Proof.
  induction stream as [| e | item rest IHs]; intros count w IH; simpl;
    try constructor.
  unfold bind.
  pose proof (handle_item_steps item w IH) as Hitem.
  destruct (handle_item_balanced uuid4_hex agent_stream item w) as [_ Hle].
  { intros t a b w1 _. apply handle_message_outline. }
  fold handle in Hle.
  destruct (handle_item handle item w) as [[r w1] ev1]. simpl in *.
  destruct r as [[] | e |]; try exact Hitem.
  specialize (IHs (sent w1) (S count) w1).
  destruct (drain handle (rest (sent w1)) (S count) w1) as [[r2 w2] ev2].
  simpl in *. eapply steps_app; [exact Hitem |].
  apply IHs. intros t a b w' Hw'. apply IH. lia.
Qed.

Lemma handle_message_steps_below (n : nat) :
  forall (text : string) (task_id context_id : option string) (w : World),
    lines_left w < n ->
    steps uuid4_hex w (events_of (handle text task_id context_id w))
      (world_of (handle text task_id context_id w)).
Proof.
  induction n as [| n IH]; intros text task_id context_id w Hn; [lia |].
  unfold handle. rewrite handle_message_unfold. fold handle.
  unfold bracket, handle_message_body. run_step. simpl.
  match goal with
  | |- context [drain handle ?s 0 ?w0] =>
      pose proof (drain_steps s 0 w0) as Hd;
      destruct (drain handle s 0 w0) as [[r w1] ev1]
  end.
  simpl in Hd.
  assert (Hsteps : steps uuid4_hex
            (mkWorld (inputs w) (S (uuid_count w))
               (sent w ++ [message_at uuid4_hex (uuid_count w) text task_id context_id]))
            ev1 w1).
  { apply Hd. intros t a b w' Hw'. apply IH.
    unfold lines_left in *. simpl in *. lia. }
  assert (Hend : forall (tail : list Event) (r' : Result unit),
            forallb (fun ev => is_output ev || is_mark ev) tail = true ->
            steps uuid4_hex w
              (EvCall text task_id context_id ::
               (EvSend (message_at uuid4_hex (uuid_count w) text task_id context_id)
                  :: ev1 ++ tail) ++ [EvReturn r'])
              w1).
  { intros tail r' Htail. apply steps_quiet; [reflexivity |]. simpl.
    apply steps_submit. rewrite <- app_assoc.
    eapply steps_app; [exact Hsteps |].
    apply steps_quiet_list. rewrite forallb_app, Htail. reflexivity. }
  unfold message_at in Hend.
  destruct r as [k | e |]; simpl.
  - destruct (k =? 0); simpl.
    + apply (Hend [EvPrint no_response_text]). reflexivity.
    + apply (Hend []). reflexivity.
  - destruct (isinstance_RuntimeError e); simpl.
    + destruct (Text.contains _ _); simpl.
      * apply (Hend [EvPrint disconnect_text]). reflexivity.
      * apply (Hend []). reflexivity.
    + specialize (Hend [] (Raise e) eq_refl). rewrite app_nil_r in Hend.
      exact Hend.
  - specialize (Hend [] OutOfFuel eq_refl). rewrite app_nil_r in Hend.
    exact Hend.
Qed.

Lemma handle_message_steps (text : string) (task_id context_id : option string)
    (w : World) :
  steps uuid4_hex w (events_of (handle text task_id context_id w))
    (world_of (handle text task_id context_id w)).
Proof. apply (handle_message_steps_below (S (lines_left w))). lia. Qed.

Lemma query_loop_steps (n : nat) :
  forall w,
    steps uuid4_hex w (events_of (query_loop uuid4_hex agent_stream n w))
      (world_of (query_loop uuid4_hex agent_stream n w)).
Proof.
  induction n as [| n IH]; intros w; simpl; [constructor |].
  unfold bind, input.
  destruct (inputs w) as [| line rest] eqn:Hin; simpl.
  - apply steps_eof; [exact Hin | constructor].
  - destruct (is_exit (Text.strip line)); simpl.
    + eapply steps_input; [exact Hin |].
      apply steps_quiet; [reflexivity | constructor].
    + pose proof (handle_message_steps (Text.strip line) None None
                    (mkWorld rest (uuid_count w) (sent w))) as H1.
      fold handle.
      destruct (handle (Text.strip line) None None _) as [[r w1] ev1].
      simpl in *.
      destruct r as [[] | e |]; simpl;
        try (eapply steps_input; [exact Hin | exact H1]).
      specialize (IH w1).
      destruct (query_loop uuid4_hex agent_stream n w1) as [[r2 w2] ev2].
      simpl in *. eapply steps_input; [exact Hin |].
      eapply steps_app; eassumption.
Qed.

Lemma interactive_loop_steps (supports_streaming : bool) (w : World) :
  steps uuid4_hex w
    (events_of (interactive_loop uuid4_hex agent_stream supports_streaming w))
    (world_of (interactive_loop uuid4_hex agent_stream supports_streaming w)).
Proof.
  unfold interactive_loop, bind, print, emit, while_true.
  pose proof (query_loop_steps (S (List.length (inputs w))) w) as H.
  destruct (query_loop _ _ _ w) as [[r w1] ev1]. simpl in *.
  apply steps_quiet; [reflexivity | exact H].
Qed.

End RunsAreSteps.

Lemma lines_read_app (evs1 evs2 : list Event) :
  lines_read (evs1 ++ evs2) = lines_read evs1 ++ lines_read evs2.
Proof.
  induction evs1 as [| ev evs1 IH]; [reflexivity |].
  destruct ev as [| | | | p [line |] | | |]; simpl; rewrite IH; reflexivity.
Qed.

Lemma steps_lines (uuid4_hex : nat -> string) (w w' : World) (evs : list Event) :
  steps uuid4_hex w evs w' -> inputs w = lines_read evs ++ inputs w'.
Proof.
  intros H. induction H as [w | w w' ev evs Hq _ IH | w w' p line rest evs Hin _ IH
                            | w w' p evs Hin _ IH | w w' t a b evs _ IH]; simpl.
  - reflexivity.
  - destruct ev; try discriminate Hq; exact IH.
  - rewrite Hin. simpl in IH. rewrite IH. reflexivity.
  - exact IH.
  - exact IH.
Qed.

Lemma steps_messages (uuid4_hex : nat -> string) (w w' : World) (evs : list Event) :
  steps uuid4_hex w evs w' ->
  sent w' = sent w ++ messages_sent evs /\
  uuid_count w' = uuid_count w + List.length (messages_sent evs) /\
  map messageId (messages_sent evs) =
    map uuid4_hex (seq (uuid_count w) (List.length (messages_sent evs))) /\
  Forall well_formed (messages_sent evs).
Proof.
  intros H. induction H as [w | w w' ev evs Hq _ IH | w w' p line rest evs Hin _ IH
                            | w w' p evs Hin _ IH | w w' t a b evs _ IH]; simpl.
  - rewrite app_nil_r. repeat split; auto.
  - destruct ev; try discriminate Hq; exact IH.
  - exact IH.
  - exact IH.
  - destruct IH as (Hsent & Hcount & Hids & Hwf). simpl in *.
    repeat split.
    + rewrite Hsent, <- app_assoc. reflexivity.
    + rewrite Hcount. lia.
    + rewrite Hids. reflexivity.
    + constructor; [| exact Hwf]. split; [reflexivity |]. eexists. reflexivity.
Qed.

(** X2.  What a session adds to the messages the agent has seen is
    exactly what it submitted, in the order of submission; it
    generates one identifier for each of these messages and no other,
    and gives them out in the order they were generated; and each
    message is from the user and has one text part. *)
Theorem submissions_are_logged (uuid4_hex : nat -> string)
    (agent_stream : list Message -> Message -> Stream)
    (supports_streaming : bool) (w : World) :
  let run := interactive_loop uuid4_hex agent_stream supports_streaming w in
  let messages := messages_sent (events_of run) in
  sent (world_of run) = sent w ++ messages /\
  uuid_count (world_of run) = uuid_count w + List.length messages /\
  map messageId messages =
    map uuid4_hex (seq (uuid_count w) (List.length messages)) /\
  Forall well_formed messages.
Proof.
  cbv zeta. apply (steps_messages uuid4_hex), interactive_loop_steps.
Qed.

(** ** How the loop and a call can end *)

Lemma query_loop_returns (uuid4_hex : nat -> string)
    (agent_stream : list Message -> Message -> Stream) (n : nat) :
  forall w,
    result_of (query_loop uuid4_hex agent_stream n w) = Ok tt ->
    exists before line,
      is_exit (Text.strip line) = true /\
      events_of (query_loop uuid4_hex agent_stream n w) =
        before ++ [EvInput query_prompt (Some line); EvPrint exiting_text].
Proof.
  induction n as [| n IH]; intros w; simpl; [discriminate |].
  unfold bind, input.
  destruct (inputs w) as [| line rest] eqn:Hin; simpl; [discriminate |].
  destruct (is_exit (Text.strip line)) eqn:Hexit; simpl.
  - intros _. exists [], line. split; [exact Hexit | reflexivity].
  - destruct (handle_message uuid4_hex agent_stream (Text.strip line) None None _)
      as [[r w1] ev1]. simpl.
    destruct r as [[] | e |]; simpl; try discriminate.
    specialize (IH w1).
    destruct (query_loop uuid4_hex agent_stream n w1) as [[r2 w2] ev2].
    simpl in *. intros Hr. destruct (IH Hr) as (before & l & Hl & Hev).
    exists (EvInput query_prompt (Some line) :: ev1 ++ before), l.
    split; [exact Hl |]. rewrite Hev. simpl. rewrite <- app_assoc. reflexivity.
Qed.

Lemma while_true_returns (uuid4_hex : nat -> string)
    (agent_stream : list Message -> Message -> Stream) (w : World) :
  result_of (while_true uuid4_hex agent_stream w) = Ok tt ->
  exists before line,
    In line (inputs w) /\
    is_exit (Text.strip line) = true /\
    events_of (while_true uuid4_hex agent_stream w) =
      before ++ [EvInput query_prompt (Some line); EvPrint exiting_text].
Proof.
  intros Hr. unfold while_true in *.
  destruct (query_loop_returns uuid4_hex agent_stream _ w Hr)
    as (before & line & Hexit & Hev).
  exists before, line. split; [| split; assumption].
  pose proof (steps_lines uuid4_hex _ _ _
                (query_loop_steps uuid4_hex agent_stream
                   (S (List.length (inputs w))) w)) as Hlines.
  rewrite Hev, lines_read_app in Hlines. simpl in Hlines.
  rewrite Hlines. apply in_or_app. left. apply in_or_app. right. left.
  reflexivity.
Qed.

Lemma while_true_without_exit (uuid4_hex : nat -> string)
    (agent_stream : list Message -> Message -> Stream) (w : World) :
  (forall line, In line (inputs w) -> is_exit (Text.strip line) = false) ->
  exists e, result_of (while_true uuid4_hex agent_stream w) = Raise e.
Proof.
  intros Hnone.
  pose proof (while_true_returns uuid4_hex agent_stream w) as Hok.
  destruct (query_loop_agree uuid4_hex agent_stream
              (S (lines_left w)) (S (lines_left w)) w) as [_ Hfuel]; try lia.
  unfold while_true in *. unfold lines_left in Hfuel.
  destruct (result_of (query_loop uuid4_hex agent_stream
                         (S (List.length (inputs w))) w)) as [[] | e |] eqn:Hr.
  - destruct (Hok eq_refl) as (before & line & Hin & Hexit & _).
    rewrite (Hnone line Hin) in Hexit. discriminate.
  - exists e. reflexivity.
  - congruence.
Qed.

(** X3.  The loop of [interactive_loop] returns normally only by the
    exit keyword: when it returns, the last things it did were to read
    at its own prompt one of the operator's lines that is "exit" or
    "quit" once stripped and lowered, and to print the goodbye.  So
    when no line of the operator is such a keyword, the loop ends by
    raising an error. *)
Theorem loop_returns_only_on_exit (uuid4_hex : nat -> string)
    (agent_stream : list Message -> Message -> Stream) (w : World) :
  (result_of (while_true uuid4_hex agent_stream w) = Ok tt ->
   exists before line,
     In line (inputs w) /\
     is_exit (Text.strip line) = true /\
     events_of (while_true uuid4_hex agent_stream w) =
       before ++ [EvInput query_prompt (Some line); EvPrint exiting_text]) /\
  ((forall line, In line (inputs w) -> is_exit (Text.strip line) = false) ->
   exists e, result_of (while_true uuid4_hex agent_stream w) = Raise e).
Proof.
  split; [apply while_true_returns |].
  apply while_true_without_exit.
Qed.

Lemma loop_returns_only_on_exit_witness :
  (forall line, In line (inputs (Demo.start ["What time is it?"; "bye"])) ->
                is_exit (Text.strip line) = false) /\
  exists e,
    result_of (while_true Demo.tally_id Demo.replying_agent
                 (Demo.start ["What time is it?"; "bye"])) = Raise e.
Proof.
  assert (H : forall line,
             In line (inputs (Demo.start ["What time is it?"; "bye"])) ->
             is_exit (Text.strip line) = false).
  { intros line [<- | [<- | []]]; reflexivity. }
  split; [exact H |].
  exact (proj2 (loop_returns_only_on_exit Demo.tally_id Demo.replying_agent
                  (Demo.start ["What time is it?"; "bye"])) H).
Defined.

(** X4.  A disconnect never leaves [handle_message]: an error the
    call raises is not a [RuntimeError] with "StopAsyncIteration" in
    its text, whatever the depth at which it arose; and the loop of
    [interactive_loop], which raises only what a call raised or the
    end of the operator's input, raises no such error either. *)
Theorem disconnect_never_escapes (uuid4_hex : nat -> string)
    (agent_stream : list Message -> Message -> Stream) (e : Exn) :
  (forall text task_id context_id w,
      result_of (handle_message uuid4_hex agent_stream text task_id context_id w)
        = Raise e ->
      recoverable e = false) /\
  (forall w,
      result_of (while_true uuid4_hex agent_stream w) = Raise e ->
      recoverable e = false).
Proof.
  assert (Hcall : forall text task_id context_id w,
    result_of (handle_message uuid4_hex agent_stream text task_id context_id w)
      = Raise e ->
    recoverable e = false).
  { intros text task_id context_id w.
    rewrite handle_message_unfold. unfold bracket, handle_message_body.
    run_step. simpl.
    match goal with
    | |- context [drain ?h ?s 0 ?w0] => destruct (drain h s 0 w0) as [[r w1] ev1]
    end.
    destruct r as [k | e' |]; simpl.
    - destruct (k =? 0); simpl; discriminate.
    - unfold recoverable.
      destruct (isinstance_RuntimeError e') eqn:Hrt; simpl.
      + destruct (Text.contains _ (exn_str e')) eqn:Hc; simpl; [discriminate |].
        intros H. injection H as <-. rewrite Hrt, Hc. reflexivity.
      + intros H. injection H as <-. rewrite Hrt. reflexivity.
    - discriminate. }
  split; [exact Hcall |].
  intros w. unfold while_true.
  generalize (S (List.length (inputs w))). intros n. revert w.
  induction n as [| n IH]; intros w; simpl; [discriminate |].
  unfold bind, input.
  destruct (inputs w) as [| line rest]; simpl.
  - intros H. injection H as <-. reflexivity.
  - destruct (is_exit (Text.strip line)); simpl; [discriminate |].
    pose proof (Hcall (Text.strip line) None None
                  (mkWorld rest (uuid_count w) (sent w))) as H1.
    destruct (handle_message uuid4_hex agent_stream (Text.strip line) None None _)
      as [[r w1] ev1]. simpl in *.
    destruct r as [[] | e' |]; simpl; try discriminate.
    + specialize (IH w1).
      destruct (query_loop uuid4_hex agent_stream n w1) as [[r2 w2] ev2].
      exact IH.
    + exact H1.
Qed.

Lemma disconnect_never_escapes_witness :
  result_of (handle_message Demo.tally_id Demo.refusing_agent
               "What time is it?" None None (Demo.start [])) = Raise Demo.refused /\
  recoverable Demo.refused = false.
Proof.
  split; [reflexivity |].
  apply (proj1 (disconnect_never_escapes Demo.tally_id Demo.refusing_agent
                  Demo.refused)
           "What time is it?" None None (Demo.start [])).
  reflexivity.
Defined.

(** ** The other branches of the loop of handle_message *)





Lemma drain_count (recur : HandleMessage) (stream : Stream) :
  forall (count n : nat) (w w' : World) (evs : list Event),
    drain recur stream count w = (Ok n, w', evs) ->
    count <= n /\
    (forall item rest, stream = Yields item rest -> count < n).
Proof.
  induction stream as [| e | item rest IH]; intros count n w w' evs; simpl.
  - unfold ret. intros H. injection H as <- _ _. split; [lia |]. discriminate.
  - unfold raise. discriminate.
  - unfold bind.
    destruct (handle_item recur item w) as [[r w1] ev1].
    destruct r as [[] | e |]; try discriminate.
    destruct (drain recur (rest (sent w1)) (S count) w1) as [[r2 w2] ev2] eqn:Hd.
    intros H. injection H as -> _ _.
    destruct (IH _ _ _ _ _ _ Hd) as [Hle _]. split; intros; lia.
Qed.

(** X7.  The "no response" warning is for the empty sequence only:
    when the sequence yields at least one item and the loop over it
    ends normally, [handle_message] returns without a word of its own
    after the loop. *)
Theorem answered_exchange_has_no_warning (uuid4_hex : nat -> string)
    (agent_stream : list Message -> Message -> Stream)
    (text : string) (task_id context_id : option string) (w w1 : World)
    (item : Item) (rest : list Message -> Stream) (n : nat) (evs : list Event) :
  let message := message_at uuid4_hex (uuid_count w) text task_id context_id in
  agent_stream (sent w) message = Yields item rest ->
  drain (handle_message uuid4_hex agent_stream) (Yields item rest) 0
    (mkWorld (inputs w) (S (uuid_count w)) (sent w ++ [message])) =
    (Ok n, w1, evs) ->
  handle_message uuid4_hex agent_stream text task_id context_id w =
    (Ok tt, w1,
     EvCall text task_id context_id :: EvSend message :: evs ++
     [EvReturn (Ok tt)]).
Proof.
  intros message Hstream Hdrain. subst message. unfold message_at in *.
  destruct (drain_count _ _ _ _ _ _ _ Hdrain) as [_ Hpos].
  specialize (Hpos item rest eq_refl).
  rewrite handle_message_unfold. unfold bracket, handle_message_body.
  run_step. simpl. rewrite Hstream, Hdrain.
  destruct n as [| n]; [lia |]. simpl. rewrite app_nil_r. reflexivity.
Qed.

Lemma answered_exchange_has_no_warning_witness :
  handle_message Demo.tally_id Demo.asking_agent "continue" (Some "t1") (Some "c1")
    (Demo.start []) =
    (Ok tt,
     mkWorld [] 1 [message_at Demo.tally_id 0 "continue" (Some "t1") (Some "c1")],
     [EvCall "continue" (Some "t1") (Some "c1");
      EvSend (message_at Demo.tally_id 0 "continue" (Some "t1") (Some "c1"));
      EvPrint (title_line "Streaming Update");
      EvSyntax (json_text (PDict [("task", PDict [("id", PStr "t1")]);
                                  ("update", PNone)]));
      EvReturn (Ok tt)]).
Proof.
  apply (answered_exchange_has_no_warning Demo.tally_id Demo.asking_agent
           "continue" (Some "t1") (Some "c1") (Demo.start [])
           (mkWorld [] 1 [message_at Demo.tally_id 0 "continue" (Some "t1") (Some "c1")])
           (ItemPair (Demo.task_t1 completed) None) (fun _ => Exhausted) 1
           [EvPrint (title_line "Streaming Update");
            EvSyntax (json_text (PDict [("task", PDict [("id", PStr "t1")]);
                                        ("update", PNone)]))]);
    reflexivity.
Defined.

(** ** Which errors count as a disconnect *)

Lemma prefix_iff (s1 s2 : string) :
  String.prefix s1 s2 = true <-> exists post, s2 = (s1 ++ post)%string.
Proof.
  revert s2. induction s1 as [| a s1 IH]; intros s2.
  - split; [intros _; exists s2; reflexivity | destruct s2; reflexivity].
  - destruct s2 as [| b s2]; simpl.
    + split; [discriminate | intros [post H]; discriminate H].
    + destruct (ascii_dec a b) as [Heq | Hne]; [subst b |].
      * rewrite IH. split; intros [post H]; exists post.
        -- rewrite H. reflexivity.
        -- injection H as H. exact H.
      * split; [discriminate |].
        intros [post H]. injection H as H _. congruence.
Qed.

Lemma contains_iff (needle hay : string) :
  Text.contains needle hay = true <->
  exists pre post, hay = (pre ++ needle ++ post)%string.
Proof.
  induction hay as [| c hay IH].
  - change (Text.contains needle EmptyString)
      with (String.prefix needle EmptyString || false).
    rewrite orb_false_r, prefix_iff. split.
    + intros [post H]. exists EmptyString, post. exact H.
    + intros [pre [post H]]. destruct pre as [| p pre]; [| discriminate H].
      exists post. exact H.
  - change (Text.contains needle (String c hay))
      with (String.prefix needle (String c hay) || Text.contains needle hay).
    rewrite orb_true_iff, prefix_iff, IH. split.
    + intros [[post H] | [pre [post H]]].
      * exists EmptyString, post. exact H.
      * exists (String c pre), post. simpl. rewrite H. reflexivity.
    + intros [pre [post H]]. destruct pre as [| p pre]; simpl in H.
      * left. exists post. exact H.
      * right. injection H as _ H. exists pre, post. exact H.
Qed.

(** X8.  The [except] clause of [handle_message] turns an error into
    a normal return exactly when the error is a [RuntimeError], or of
    a subclass of it, and the text "StopAsyncIteration" occurs
    somewhere in its message: at the start, at the end or in the
    middle. *)
Theorem disconnect_is_a_marker_inside (e : Exn) (w : World) :
  result_of (try_except (raise e) isinstance_RuntimeError on_runtime_error w)
    = Ok tt <->
  isinstance_RuntimeError e = true /\
  exists pre post, exn_str e = (pre ++ "StopAsyncIteration" ++ post)%string.
Proof.
  rewrite <- contains_iff. unfold try_except, raise, on_runtime_error.
  destruct (isinstance_RuntimeError e); simpl.
  - unfold print, emit, raise.
    destruct (Text.contains "StopAsyncIteration" (exn_str e)); simpl.
    + split; auto.
    + split; [discriminate | intros [_ H]; discriminate H].
  - split; [discriminate | intros [H _]; discriminate H].
Qed.

Lemma disconnect_is_a_marker_inside_witness :
  result_of (try_except (raise Demo.disconnect) isinstance_RuntimeError
               on_runtime_error (Demo.start [])) = Ok tt.
Proof.
  apply (proj2 (disconnect_is_a_marker_inside Demo.disconnect (Demo.start []))).
  split; [reflexivity |].
  exists "anext(): ", EmptyString. reflexivity.
Defined.

(** ** Blanks around a line *)

Lemma lstrip_blank (s : string) : blank s = true -> Text.lstrip s = EmptyString.
Proof.
  induction s as [| c s IH]; simpl; [reflexivity |].
  intros H. apply andb_true_iff in H as [Hc Hs]. rewrite Hc. auto.
Qed.

Lemma rstrip_blank (s : string) : blank s = true -> Text.rstrip s = EmptyString.
Proof.
  induction s as [| c s IH]; simpl; [reflexivity |].
  intros H. apply andb_true_iff in H as [Hc Hs]. rewrite (IH Hs), Hc.
  reflexivity.
Qed.

Lemma lstrip_blank_app (pre s : string) :
  blank pre = true -> Text.lstrip (pre ++ s)%string = Text.lstrip s.
Proof.
  induction pre as [| c pre IH]; simpl; [reflexivity |].
  intros H. apply andb_true_iff in H as [Hc Hpre]. rewrite Hc. auto.
Qed.

Lemma rstrip_app_blank (s post : string) :
  blank post = true -> Text.rstrip (s ++ post)%string = Text.rstrip s.
Proof.
  intros Hpost. induction s as [| c s IH]; simpl.
  - apply rstrip_blank, Hpost.
  - rewrite IH. reflexivity.
Qed.

Lemma lstrip_app (s post : string) :
  Text.lstrip (s ++ post)%string =
    if blank s then Text.lstrip post else (Text.lstrip s ++ post)%string.
Proof.
  induction s as [| c s IH]; simpl; [reflexivity |].
  destruct (Text.isspace c); simpl; [exact IH | reflexivity].
Qed.

Lemma strip_padded (pre s post : string) :
  blank pre = true -> blank post = true ->
  Text.strip (pre ++ s ++ post)%string = Text.strip s.
Proof.
  intros Hpre Hpost. unfold Text.strip.
  rewrite lstrip_blank_app by exact Hpre. rewrite lstrip_app.
  destruct (blank s) eqn:Hs.
  - rewrite (lstrip_blank post Hpost), (lstrip_blank s Hs). reflexivity.
  - apply rstrip_app_blank, Hpost.
Qed.

(** X9.  Blanks around a line make no difference to the loop of
    [interactive_loop] beyond the line it records as read: the same
    decision to leave, the same query submitted, the same result,
    world and events after the prompt. *)
Theorem blanks_around_a_line_ignored (uuid4_hex : nat -> string)
    (agent_stream : list Message -> Message -> Stream)
    (pre line post : string) (lines : list string) (count : nat)
    (earlier : list Message) :
  blank pre = true -> blank post = true ->
  let bare := while_true uuid4_hex agent_stream
                (mkWorld (line :: lines) count earlier) in
  let padded := while_true uuid4_hex agent_stream
                  (mkWorld ((pre ++ line ++ post)%string :: lines) count earlier) in
  result_of padded = result_of bare /\
  world_of padded = world_of bare /\
  events_of padded =
    EvInput query_prompt (Some (pre ++ line ++ post)%string) :: tl (events_of bare).
Proof.
  intros Hpre Hpost. cbv zeta. rewrite !while_true_unfold.
  unfold bind, input. simpl inputs. cbv iota beta zeta.
  rewrite (strip_padded pre line post Hpre Hpost). simpl uuid_count. simpl sent.
  destruct (is_exit (Text.strip line)); [simpl; auto |].
  destruct (handle_message uuid4_hex agent_stream (Text.strip line) None None _)
    as [[r w1] ev1].
  destruct r as [[] | e |]; try (simpl; auto; fail).
  destruct (while_true uuid4_hex agent_stream w1) as [[r2 w2] ev2].
  simpl. auto.
Qed.

Lemma blanks_around_a_line_ignored_witness :
  blank "  " = true /\ blank " " = true /\
  while_true Demo.tally_id Demo.replying_agent (Demo.start ["  Quit "; "next"]) =
    (Ok tt, Demo.start ["next"],
     [EvInput query_prompt (Some "  Quit "); EvPrint exiting_text]).
Proof.
  split; [reflexivity |]. split; [reflexivity |].
  destruct (blanks_around_a_line_ignored Demo.tally_id Demo.replying_agent
              "  " "Quit" " " ["next"] 0 [] eq_refl eq_refl)
    as (Hr & Hw & Hev).
  change ("  " ++ "Quit" ++ " ")%string with "  Quit " in *.
  unfold Demo.start.
  destruct (while_true Demo.tally_id Demo.replying_agent
              (mkWorld ["  Quit "; "next"] 0 [])) as [[r w1] ev1].
  simpl in Hr, Hw, Hev. rewrite Hr, Hw, Hev. reflexivity.
Defined.

(** ** When print_json_response raises *)

Lemma print_json_response_full_run (repr : PyVal -> Exn + string)
    (markup_error : string -> option Exn) (response : PyVal)
    (title : string) (w : World) :
  print_json_response_full repr markup_error response title w =
    match formatted response with
    | inr j => (Ok tt, w, [EvPrint (title_line title); EvSyntax j])
    | inl e0 =>
        match markup_error (error_line e0) with
        | Some e => (Raise e, w, [EvPrint (title_line title)])
        | None =>
            match repr response with
            | inl e =>
                (Raise e, w,
                 [EvPrint (title_line title); EvRichPrint (error_line e0)])
            | inr text =>
                match markup_error text with
                | Some e =>
                    (Raise e, w,
                     [EvPrint (title_line title); EvRichPrint (error_line e0)])
                | None =>
                    (Ok tt, w,
                     [EvPrint (title_line title); EvRichPrint (error_line e0);
                      EvRichPrint text])
                end
            end
        end
    end.
Proof.
  unfold print_json_response_full, formatted, rprint_markup. run_step.
  destruct (response_data response) as [e0 | data]; simpl.
  - destruct (markup_error (error_line e0)); simpl; [reflexivity |].
    destruct (repr response) as [e | text]; simpl; [reflexivity |].
    destruct (markup_error text); reflexivity.
  - destruct (json_dumps data) as [e0 | j]; simpl; [| reflexivity].
    destruct (markup_error (error_line e0)); simpl; [reflexivity |].
    destruct (repr response) as [e | text]; simpl; [reflexivity |].
    destruct (markup_error text); reflexivity.
Qed.

(** X15.  [print_json_response] guards the formatting, not the
    fallback: when formatting fails with [e0], an error that rich
    raises on the error line, that [repr] raises on the payload, or
    that rich raises on the text of the [repr], is raised by
    [print_json_response] itself, after what was printed before it.
    The function raises in these three cases only; in every other case
    it returns normally and leaves the world as it was. *)
Theorem fallback_errors_are_raised (repr : PyVal -> Exn + string)
    (markup_error : string -> option Exn) (response : PyVal)
    (title : string) (w : World) :
  let run := print_json_response_full repr markup_error response title w in
  let shown := EvPrint (title_line title) in
  (forall j, formatted response = inr j -> run = (Ok tt, w, [shown; EvSyntax j]))
  /\
  (forall e0,
      formatted response = inl e0 ->
      run =
        match markup_error (error_line e0) with
        | Some e => (Raise e, w, [shown])
        | None =>
            match repr response with
            | inl e => (Raise e, w, [shown; EvRichPrint (error_line e0)])
            | inr text =>
                match markup_error text with
                | Some e => (Raise e, w, [shown; EvRichPrint (error_line e0)])
                | None =>
                    (Ok tt, w,
                     [shown; EvRichPrint (error_line e0); EvRichPrint text])
                end
            end
        end) /\
  world_of run = w /\
  (forall e,
      result_of run = Raise e <->
      exists e0,
        formatted response = inl e0 /\
        (markup_error (error_line e0) = Some e \/
         markup_error (error_line e0) = None /\
         (repr response = inl e \/
          exists text, repr response = inr text /\ markup_error text = Some e))).
Proof.
  cbv zeta. rewrite print_json_response_full_run.
  destruct (formatted response) as [e0 | j].
  - split; [intros j H; discriminate H |].
    split; [intros e1 H; injection H as <-; reflexivity |].
    destruct (markup_error (error_line e0)) as [e |] eqn:Hm.
    { split; [reflexivity |]. intros e'. split.
      - intros H. injection H as <-. exists e0. auto.
      - intros (e1 & H1 & H2). injection H1 as <-. simpl.
        destruct H2 as [H2 | [H2 _]]; congruence. }
    destruct (repr response) as [e | text] eqn:Hr.
    { split; [reflexivity |]. intros e'. split.
      - intros H. injection H as <-. exists e0. auto.
      - intros (e1 & H1 & H2). injection H1 as <-. simpl.
        destruct H2 as [H2 | [_ [H2 | (text & H2 & _)]]]; congruence. }
    destruct (markup_error text) as [e |] eqn:Ht.
    { split; [reflexivity |]. intros e'. split.
      - intros H. injection H as <-. exists e0. split; [reflexivity |].
        right. split; [exact Hm |]. right. exists text. auto.
      - intros (e1 & H1 & H2). injection H1 as <-. simpl.
        destruct H2 as [H2 | [_ [H2 | (text' & H2 & H3)]]]; try congruence;
          injection H2 as <-; congruence. }
    split; [reflexivity |]. intros e'. split; [discriminate |].
    intros (e1 & H1 & H2). injection H1 as <-. simpl.
    destruct H2 as [H2 | [_ [H2 | (text' & H2 & H3)]]]; try congruence;
      injection H2 as <-; congruence.
  - split; [intros j' H; injection H as <-; reflexivity |].
    split; [intros e0 H; discriminate H |].
    split; [reflexivity |]. intros e. split; [discriminate |].
    intros (e0 & H & _). discriminate H.
Qed.

Lemma fallback_errors_are_raised_witness :
  result_of (print_json_response_full sample_repr sample_markup_error
               (PInt (10 ^ 5000)) "Agent Reply" (Demo.start [])) =
    Raise (mkExn (OtherException "ValueError")
             "Exceeds the limit (4300 digits) for integer string conversion; use sys.set_int_max_str_digits() to increase the limit") /\
  formatted tagged_payload =
    inl (mkExn TypeError "Object of type object is not JSON serializable") /\
  print_json_response_full sample_repr sample_markup_error tagged_payload
    "Agent Reply" (Demo.start []) =
    (Raise (mkExn (OtherException "MarkupError")
              "closing tag '[/x]' doesn't match any open tag"),
     Demo.start [],
     [EvPrint (title_line "Agent Reply");
      EvRichPrint
        (error_line
           (mkExn TypeError "Object of type object is not JSON serializable"))]).
Proof.
  split.
  { apply (proj2 (proj2 (proj2 (fallback_errors_are_raised sample_repr
                                  sample_markup_error (PInt (10 ^ 5000))
                                  "Agent Reply" (Demo.start []))))).
    eexists. split; [vm_compute; reflexivity |].
    right. split; [vm_compute; reflexivity |]. left. vm_compute. reflexivity. }
  split; [reflexivity |].
  rewrite (proj1 (proj2 (fallback_errors_are_raised sample_repr
                           sample_markup_error tagged_payload "Agent Reply"
                           (Demo.start [])))
             (mkExn TypeError "Object of type object is not JSON serializable")
             eq_refl).
  reflexivity.
Defined.

(** ** run_main and the smoke test *)

Lemma interactive_loop_result (uuid4_hex : nat -> string)
    (agent_stream : list Message -> Message -> Stream)
    (supports_streaming : bool) (w : World) :
  result_of (interactive_loop uuid4_hex agent_stream supports_streaming w) =
    result_of (while_true uuid4_hex agent_stream w).
Proof.
  unfold interactive_loop, bind, print, emit. cbv beta iota.
  destruct (while_true uuid4_hex agent_stream w) as [[r w1] ev1]. reflexivity.
Qed.

Lemma interactive_loop_total (uuid4_hex : nat -> string)
    (agent_stream : list Message -> Message -> Stream)
    (supports_streaming : bool) (w : World) :
  result_of (interactive_loop uuid4_hex agent_stream supports_streaming w)
    <> OutOfFuel.
Proof.
  rewrite interactive_loop_result. unfold while_true.
  destruct (query_loop_agree uuid4_hex agent_stream
              (S (lines_left w)) (S (lines_left w)) w) as [_ Hfuel]; try lia.
  exact Hfuel.
Qed.

(** X12.  What [run_main] does after it announced the connection,
    when no interrupt occurs.  When the connection fails with an
    error, the traceback and the hint are printed: the operator is
    asked nothing and nothing is submitted.  When the connection
    succeeds but rich cannot print the line that says so, because of
    the text of the url, the same report is made of rich's error and
    the session is never started.  Otherwise [run_main] ends in the
    world the session left and its events are the two connection
    messages, the events of [interactive_loop] and, exactly when the
    session raised, the traceback of that error and the hint. *)
Theorem run_main_reports_the_session (uuid4_hex : nat -> string)
    (connect : string -> Exn + Agent) (markup_error : string -> option Exn)
    (agent_url : string) (w : World) :
  let main_run := run_main uuid4_hex connect markup_error agent_url w in
  (forall e,
      connect agent_url = inl e ->
      main_run =
        (Ok tt, w,
         [Driver (EvPrint (connecting_text agent_url));
          EvConnect agent_url; EvTraceback e; Driver (EvPrint failed_text)])) /\
  (forall client e,
      connect agent_url = inr client ->
      markup_error (connected_text agent_url) = Some e ->
      main_run =
        (Ok tt, w,
         [Driver (EvPrint (connecting_text agent_url));
          EvConnect agent_url; EvTraceback e; Driver (EvPrint failed_text)])) /\
  (forall client,
      connect agent_url = inr client ->
      markup_error (connected_text agent_url) = None ->
      let session := interactive_loop uuid4_hex client true w in
      proc_world main_run = world_of session /\
      proc_events main_run =
        [Driver (EvPrint (connecting_text agent_url));
         EvConnect agent_url;
         Driver (EvRichPrint (connected_text agent_url))] ++
        map Driver (events_of session) ++
        match result_of session with
        | Raise e => [EvTraceback e; Driver (EvPrint failed_text)]
        | _ => []
        end).
Proof.
  cbv zeta.
  unfold run_main, proc_bind, proc_try, connect_to, driver, proc_emit,
    rprint_markup.
  split; [| split].
  - intros e Hc. rewrite Hc. reflexivity.
  - intros client e Hc Hm. rewrite Hc, Hm. reflexivity.
  - intros client Hc Hm. rewrite Hc, Hm.
    pose proof (interactive_loop_total uuid4_hex client true w) as Hfuel.
    unfold print, raise, emit. simpl.
    destruct (interactive_loop uuid4_hex client true w) as [[r w1] ev1].
    simpl in *. destruct r as [[] | e |]; simpl.
    + rewrite app_nil_r. split; reflexivity.
    + split; reflexivity.
    + congruence.
Qed.

Lemma run_main_reports_the_session_witness :
  reachable Demo.replying_agent "http://[/x]:10000" = inr Demo.replying_agent /\
  sample_markup_error (connected_text "http://[/x]:10000") =
    Some (mkExn (OtherException "MarkupError")
            "closing tag '[/x]' doesn't match any open tag") /\
  run_main Demo.tally_id (reachable Demo.replying_agent) sample_markup_error
    "http://[/x]:10000" (Demo.start ["What time is it?"; "exit"]) =
    (Ok tt, Demo.start ["What time is it?"; "exit"],
     [Driver (EvPrint (connecting_text "http://[/x]:10000"));
      EvConnect "http://[/x]:10000";
      EvTraceback (mkExn (OtherException "MarkupError")
                     "closing tag '[/x]' doesn't match any open tag");
      Driver (EvPrint failed_text)]) /\
  unreachable default_agent_url = inl Demo.refused /\
  run_main Demo.tally_id unreachable sample_markup_error default_agent_url
    (Demo.start ["hello"]) =
    (Ok tt, Demo.start ["hello"],
     [Driver (EvPrint (connecting_text default_agent_url));
      EvConnect default_agent_url; EvTraceback Demo.refused;
      Driver (EvPrint failed_text)]) /\
  sample_markup_error (connected_text default_agent_url) = None /\
  proc_events (run_main Demo.tally_id (reachable Demo.replying_agent)
                 sample_markup_error default_agent_url (Demo.start ["exit"])) =
    [Driver (EvPrint (connecting_text default_agent_url));
     EvConnect default_agent_url;
     Driver (EvRichPrint (connected_text default_agent_url));
     Driver (EvPrint instructions_text);
     Driver (EvInput query_prompt (Some "exit"));
     Driver (EvPrint exiting_text)].
Proof.
  split; [reflexivity |]. split; [reflexivity |]. split.
  { apply (proj1 (proj2 (run_main_reports_the_session Demo.tally_id
                           (reachable Demo.replying_agent) sample_markup_error
                           "http://[/x]:10000"
                           (Demo.start ["What time is it?"; "exit"])))
             Demo.replying_agent); reflexivity. }
  split; [reflexivity |]. split.
  { apply (proj1 (run_main_reports_the_session Demo.tally_id unreachable
                    sample_markup_error default_agent_url
                    (Demo.start ["hello"]))).
    reflexivity. }
  split; [reflexivity |].
  destruct (proj2 (proj2 (run_main_reports_the_session Demo.tally_id
                            (reachable Demo.replying_agent) sample_markup_error
                            default_agent_url (Demo.start ["exit"])))
              Demo.replying_agent eq_refl eq_refl) as [_ Hev].
  rewrite Hev. reflexivity.
Defined.

Lemma simple_test_run (uuid4_hex : nat -> string)
    (connect : string -> Exn + Agent) (w : World) :
  simple_test uuid4_hex connect w =
    match connect default_agent_url with
    | inl e =>
        (Ok tt, w,
         [Driver (EvPrint "Connecting to agent...");
          EvConnect default_agent_url;
          Driver (EvPrint ("Error: " ++ exn_str e)); EvTraceback e])
    | inr client =>
        let message :=
          mkMessage user [mkPart "text" "What time is it?"]
            (uuid4_hex (uuid_count w)) None None in
        (Ok tt,
         mkWorld (inputs w) (S (uuid_count w)) (sent w ++ [message]),
         [Driver (EvPrint "Connecting to agent...");
          EvConnect default_agent_url;
          Driver (EvPrint "Creating message...");
          Driver (EvPrint "Sending message...");
          Driver (EvSend message)] ++
         match client (sent w) message with
         | Exhausted => []
         | Raises e => [Driver (EvPrint ("Error: " ++ exn_str e)); EvTraceback e]
         | Yields item _ => [EvItemType item; EvItem item]
         end)
    end.
Proof.
  unfold simple_test, proc_bind, proc_try, connect_to, driver, proc_emit,
    proc_ret, proc_raise.
  run_step. simpl.
  destruct (connect default_agent_url) as [e | client]; simpl; [reflexivity |].
  destruct (client (sent w) _) as [| e | item rest]; reflexivity.
Qed.

(** X13.  The smoke test never raises and never asks the operator
    anything.  When the connection fails it submits nothing and
    reports the error; when it succeeds it submits exactly one
    message, from the user, with the text "What time is it?", a
    fresh identifier and no task or context identifier; and of the
    answer it prints the first item only, whatever follows it. *)
Theorem simple_test_sends_one_message (uuid4_hex : nat -> string)
    (connect : string -> Exn + Agent) (w : World) :
  let message :=
    mkMessage user [mkPart "text" "What time is it?"]
      (uuid4_hex (uuid_count w)) None None in
  let run := simple_test uuid4_hex connect w in
  proc_result run = Ok tt /\
  inputs (proc_world run) = inputs w /\
  lines_read (driver_events (proc_events run)) = [] /\
  (forall e, connect default_agent_url = inl e ->
             proc_world run = w /\
             proc_events run =
               [Driver (EvPrint "Connecting to agent...");
                EvConnect default_agent_url;
                Driver (EvPrint ("Error: " ++ exn_str e)); EvTraceback e]) /\
  (forall client, connect default_agent_url = inr client ->
                  sent (proc_world run) = sent w ++ [message] /\
                  messages_sent (driver_events (proc_events run)) = [message]) /\
  (forall client item rest,
      connect default_agent_url = inr client ->
      client (sent w) message = Yields item rest ->
      proc_events run =
        [Driver (EvPrint "Connecting to agent...");
         EvConnect default_agent_url;
         Driver (EvPrint "Creating message...");
         Driver (EvPrint "Sending message...");
         Driver (EvSend message);
         EvItemType item; EvItem item]).
Proof.
  cbv zeta. rewrite simple_test_run.
  destruct (connect default_agent_url) as [e | client]; cbv zeta.
  - split; [reflexivity |]. split; [reflexivity |]. split; [reflexivity |].
    split; [| split].
    + intros e' He'. injection He' as <-. split; reflexivity.
    + intros client Hc. discriminate Hc.
    + intros client item rest Hc. discriminate Hc.
  - split; [reflexivity |]. split; [reflexivity |]. split.
    { destruct (client (sent w) _) as [| e | item rest]; reflexivity. }
    split; [| split].
    + intros e He. discriminate He.
    + intros c _. split; [reflexivity |].
      destruct (client (sent w) _) as [| e | item rest]; reflexivity.
    + intros c item rest Hc Hs. injection Hc as <-. rewrite Hs. reflexivity.
Qed.

Lemma simple_test_sends_one_message_witness :
  reachable Demo.asking_agent default_agent_url = inr Demo.asking_agent /\
  proc_events (simple_test Demo.tally_id (reachable Demo.asking_agent)
                 (Demo.start ["ignored"])) =
    [Driver (EvPrint "Connecting to agent...");
     EvConnect default_agent_url;
     Driver (EvPrint "Creating message...");
     Driver (EvPrint "Sending message...");
     Driver (EvSend (mkMessage user [mkPart "text" "What time is it?"] "id"
                       None None));
     EvItemType (ItemPair (Demo.task_t1 input_required) None);
     EvItem (ItemPair (Demo.task_t1 input_required) None)].
Proof.
  split; [reflexivity |].
  destruct (simple_test_sends_one_message Demo.tally_id
              (reachable Demo.asking_agent) (Demo.start ["ignored"]))
    as (_ & _ & _ & _ & _ & H).
  apply (H Demo.asking_agent (ItemPair (Demo.task_t1 input_required) None)
           (fun _ => Exhausted)); reflexivity.
Defined.

(** ** What a call submits *)

Lemma messages_sent_app (evs1 evs2 : list Event) :
  messages_sent (evs1 ++ evs2) = messages_sent evs1 ++ messages_sent evs2.
Proof.
  induction evs1 as [| ev evs1 IH]; [reflexivity |].
  destruct ev; simpl; rewrite IH; reflexivity.
Qed.

Lemma quiet_events_silent (evs : list Event) :
  forallb (fun ev => is_output ev || is_mark ev) evs = true ->
  messages_sent evs = [] /\ lines_read evs = [].
Proof.
  induction evs as [| ev evs IH]; simpl; [split; reflexivity |].
  intros H. apply andb_true_iff in H as [Hev Hevs].
  destruct ev; try discriminate Hev; apply IH, Hevs.
Qed.

Lemma rendered_silent (response : PyVal) (title : string) (w : World) :
  messages_sent (events_of (print_json_response response title w)) = [] /\
  lines_read (events_of (print_json_response response title w)) = [].
Proof.
  apply quiet_events_silent. rewrite print_json_response_run. simpl.
  destruct (formatted response); reflexivity.
Qed.

Section FollowUps.

Variable uuid4_hex : nat -> string.
Variable agent_stream : list Message -> Message -> Stream.

Let handle := handle_message uuid4_hex agent_stream.
Let part_of (line : string) : list Part := [mkPart "text" line].

Lemma handle_item_texts (item : Item) (w : World) :
  (forall t a b w1, lines_left w1 < lines_left w ->
     map parts (messages_sent (events_of (handle t a b w1))) =
       map part_of (t :: lines_read (events_of (handle t a b w1)))) ->
  map parts (messages_sent (events_of (handle_item handle item w))) =
    map part_of (lines_read (events_of (handle_item handle item w))).
Proof.
  intros IH. destruct item as [task update | reply]; simpl.
  - fold (streaming_payload task update). unfold bind.
    destruct (rendered_silent (streaming_payload task update)
                "Streaming Update" w) as [Hm Hl].
    destruct (print_json_response (streaming_payload task update)
                "Streaming Update" w) as [[r0 w0] shown] eqn:Hp.
    rewrite print_json_response_run in Hp. injection Hp as <- <- _.
    simpl in Hm, Hl.
    destruct (TaskState_eqb (state (task_status task)) input_required).
    + unfold input. destruct (inputs w) as [| line rest] eqn:Hin; simpl.
      * rewrite messages_sent_app, lines_read_app, Hm, Hl. reflexivity.
      * specialize (IH line (Some (task_id task)) (Some (task_context_id task))
                      (mkWorld rest (uuid_count w) (sent w))).
        destruct (handle line _ _ _) as [[r w1] ev1]. simpl in *.
        rewrite messages_sent_app, lines_read_app, Hm, Hl. simpl.
        apply IH. unfold lines_left. simpl. rewrite Hin. simpl. lia.
    + simpl. rewrite app_nil_r, Hm, Hl. reflexivity.
  - destruct (rendered_silent reply "Agent Reply" w) as [Hm Hl].
    destruct (print_json_response reply "Agent Reply" w) as [[r0 w0] shown].
    simpl in *. rewrite Hm, Hl. reflexivity.
Qed.

Lemma drain_texts (stream : Stream) :
  forall (count : nat) (w : World),
    (forall t a b w1, lines_left w1 < lines_left w ->
       map parts (messages_sent (events_of (handle t a b w1))) =
         map part_of (t :: lines_read (events_of (handle t a b w1)))) ->
    map parts (messages_sent (events_of (drain handle stream count w))) =
      map part_of (lines_read (events_of (drain handle stream count w))).
Proof.
  induction stream as [| e | item rest IHs]; intros count w IH; simpl;
    try reflexivity.
  unfold bind.
  pose proof (handle_item_texts item w IH) as Hitem.
  destruct (handle_item_balanced uuid4_hex agent_stream item w) as [_ Hle].
  { intros t a b w1 _. apply handle_message_outline. }
  fold handle in Hle.
  destruct (handle_item handle item w) as [[r w1] ev1]. simpl in *.
  destruct r as [[] | e |]; try exact Hitem.
  specialize (IHs (sent w1) (S count) w1).
  destruct (drain handle (rest (sent w1)) (S count) w1) as [[r2 w2] ev2].
  simpl in *. rewrite messages_sent_app, lines_read_app, !map_app, Hitem.
  f_equal. apply IHs. intros t a b w' Hw'. apply IH. lia.
Qed.

Lemma handle_message_texts_below (n : nat) :
  forall (text : string) (task_id context_id : option string) (w : World),
    lines_left w < n ->
    map parts (messages_sent (events_of (handle text task_id context_id w))) =
      map part_of
        (text :: lines_read (events_of (handle text task_id context_id w))).
Proof.
  induction n as [| n IH]; intros text task_id context_id w Hn; [lia |].
  unfold handle. rewrite handle_message_unfold. fold handle.
  unfold bracket, handle_message_body. run_step. simpl.
  match goal with
  | |- context [drain handle ?s 0 ?w0] =>
      pose proof (drain_texts s 0 w0) as Hd;
      destruct (drain handle s 0 w0) as [[r w1] ev1]
  end.
  simpl in Hd.
  assert (Hev : map parts (messages_sent ev1) = map part_of (lines_read ev1)).
  { apply Hd. intros t a b w' Hw'. apply IH.
    unfold lines_left in *. simpl in *. lia. }
  assert (Hend : forall tail : list Event,
            forallb (fun ev => is_output ev || is_mark ev) tail = true ->
            map parts (messages_sent (ev1 ++ tail)) =
              map part_of (lines_read (ev1 ++ tail))).
  { intros tail Htail. destruct (quiet_events_silent tail Htail) as [Hm Hl].
    rewrite messages_sent_app, lines_read_app, Hm, Hl, !app_nil_r. exact Hev. }
  destruct r as [k | e |]; simpl.
  - destruct (k =? 0); simpl; rewrite <- app_assoc; f_equal;
      apply Hend; reflexivity.
  - destruct (isinstance_RuntimeError e); simpl.
    + destruct (Text.contains _ _); simpl; rewrite <- ?app_assoc; f_equal;
        apply Hend; reflexivity.
    + f_equal. apply Hend. reflexivity.
  - f_equal. apply Hend. reflexivity.
Qed.

End FollowUps.

(** X14.  The messages a call of [handle_message] submits, at any
    depth, carry the text the call was given and then the lines the
    operator gave at the follow-up prompts, one message for each line,
    in the order of the lines and each line as it was typed. *)
Theorem follow_up_lines_submitted_verbatim (uuid4_hex : nat -> string)
    (agent_stream : list Message -> Message -> Stream)
    (text : string) (task_id context_id : option string) (w : World) :
  let run := handle_message uuid4_hex agent_stream text task_id context_id w in
  map parts (messages_sent (events_of run)) =
    map (fun line => [mkPart "text" line]) (text :: lines_read (events_of run)).
Proof.
  cbv zeta.
  apply (handle_message_texts_below uuid4_hex agent_stream (S (lines_left w))).
  lia.
Qed.
